(** * scripts/init.py: the workspace initializer

    A shallow embedding of [ProjectInitializer] (scripts/init.py) and the
    properties of its repository synchronisation: which subprocesses a
    repository task starts, what it reports, how failures are contained, how
    the semaphore bounds the tasks in flight and which exit code the script
    leaves.

    The script talks to the outside through four things only: the file
    system ([os.makedirs], [Path.exists]), subprocesses
    ([asyncio.create_subprocess_exec], [communicate]), the shared
    [asyncio.Semaphore] and standard output.  A coroutine is embedded as a
    finite tree of such interactions ([prog]); its meaning is given twice, by
    an interpreter that runs one coroutine against a world ([exec]) and by a
    step relation that interleaves the tasks of [asyncio.gather]
    ([pool_step]). *)

From Stdlib Require Import String Ascii List ZArith NArith Lia Bool Arith.
Import ListNotations.
Open Scope string_scope.

(** ** Python [str] and [bytes]

    Both are sequences of bytes here: a [str] is kept in its UTF-8 encoding,
    so that comparing, concatenating and searching for an ASCII text agree
    with Python's. *)
Module Str.

Definition codes (s : string) : list N :=
  map N_of_ascii (list_ascii_of_string s).

Definition of_codes (l : list N) : string :=
  string_of_list_ascii (map ascii_of_N l).

(** [needle in hay]. *)
Fixpoint contains (needle hay : string) : bool :=
  if String.prefix needle hay then true
  else match hay with
       | EmptyString => false
       | String _ rest => contains needle rest
       end.

Definition startswith (p s : string) : bool := String.prefix p s.

Definition between (lo hi b : N) : bool := ((lo <=? b) && (b <=? hi))%N.

Definition continuation (b : N) : bool := between 128 191 b.

(** What [bytes.decode()] accepts: well-formed UTF-8, without overlong forms,
    surrogates or code points above U+10FFFF. *)
Fixpoint utf8_valid (l : list N) : bool :=
  match l with
  | [] => true
  | b0 :: t0 =>
    if (b0 <? 128)%N then utf8_valid t0 else
    match t0 with
    | [] => false
    | b1 :: t1 =>
      if between 194 223 b0 then continuation b1 && utf8_valid t1 else
      match t1 with
      | [] => false
      | b2 :: t2 =>
        if between 224 239 b0 then
          (if (b0 =? 224)%N then between 160 191 b1
           else if (b0 =? 237)%N then between 128 159 b1
           else continuation b1)
          && continuation b2 && utf8_valid t2
        else
        match t2 with
        | [] => false
        | b3 :: t3 =>
          between 240 244 b0
          && (if (b0 =? 240)%N then between 144 191 b1
              else if (b0 =? 244)%N then between 128 143 b1
              else continuation b1)
          && continuation b2 && continuation b3 && utf8_valid t3
        end
      end
    end
  end.

(** [str.lower()].  The letters A-Z are mapped to a-z.  Outside ASCII only the
    two characters whose lowercase form contains an ASCII letter are mapped:
    U+0130 (to [i] followed by U+0307) and U+212A, the Kelvin sign (to [k]).
    Every other character outside ASCII is left as it is: Python maps it to
    characters that are outside ASCII again, which no ASCII text matches. *)
Fixpoint lower_codes (l : list N) : list N :=
  match l with
  | [] => []
  | b0 :: t0 =>
    if between 65 90 b0 then (b0 + 32)%N :: lower_codes t0 else
    match t0 with
    | b1 :: t1 =>
      if ((b0 =? 196) && (b1 =? 176))%N then 105%N :: 204%N :: 135%N :: lower_codes t1
      else match t1 with
           | b2 :: t2 =>
             if ((b0 =? 226) && (b1 =? 132) && (b2 =? 170))%N
             then 107%N :: lower_codes t2
             else b0 :: lower_codes t0
           | [] => b0 :: lower_codes t0
           end
    | [] => [b0]
    end
  end.

Definition lower (s : string) : string := of_codes (lower_codes (codes s)).

(** The characters [str.strip()] removes ([str.isspace]), in UTF-8. *)
Definition whitespace : list (list N) :=
  ([ [9]; [10]; [11]; [12]; [13]; [28]; [29]; [30]; [31]; [32];
     [194; 133]; [194; 160]; [225; 154; 128];
     [226; 128; 128]; [226; 128; 129]; [226; 128; 130]; [226; 128; 131];
     [226; 128; 132]; [226; 128; 133]; [226; 128; 134]; [226; 128; 135];
     [226; 128; 136]; [226; 128; 137]; [226; 128; 138];
     [226; 128; 168]; [226; 128; 169]; [226; 128; 175];
     [226; 129; 159]; [227; 128; 128] ])%N.

Fixpoint is_prefix (p l : list N) : bool :=
  match p, l with
  | [], _ => true
  | a :: p', b :: l' => (a =? b)%N && is_prefix p' l'
  | _ :: _, [] => false
  end.

Fixpoint drop_leading (table : list (list N)) (fuel : nat) (l : list N) : list N :=
  match fuel with
  | O => l
  | S fuel' =>
    match find (fun p => is_prefix p l) table with
    | Some p => drop_leading table fuel' (skipn (length p) l)
    | None => l
    end
  end.

Definition strip (s : string) : string :=
  let l := codes s in
  let l1 := drop_leading whitespace (length l) l in
  let l2 := drop_leading (map (@rev N) whitespace) (length l1) (rev l1) in
  of_codes (rev l2).

End Str.

(** ** [pathlib.Path]

    An absolute POSIX path, as the list of its components; the root is [].
    POSIX sets apart a root of exactly two slashes, and pathlib keeps it: such
    a path has the empty text as its first component (no other component is
    empty). *)
Definition Path := list string.

Module PathLib.

(** The text before the first [/] and the text after it, if there is one. *)
Fixpoint split_slash (s : string) : string * option string :=
  match s with
  | EmptyString => (EmptyString, None)
  | String c rest =>
    if Ascii.eqb c "/" then (EmptyString, Some rest)
    else let '(h, t) := split_slash rest in (String c h, t)
  end.

Fixpoint split_fuel (fuel : nat) (s : string) : list string :=
  match fuel with
  | O => [s]
  | S fuel' =>
    match split_slash s with
    | (h, None) => [h]
    | (h, Some rest) => h :: split_fuel fuel' rest
    end
  end.

(** The components pathlib keeps of a text: empty ones and [.] are dropped. *)
Definition parts (s : string) : list string :=
  filter (fun c => negb (String.eqb c "" || String.eqb c "."))
         (split_fuel (String.length s) s).

(** The text starts with exactly two slashes. *)
Definition double_root (s : string) : bool :=
  Str.startswith "//" s && negb (Str.startswith "///" s).

(** [base / name]: a [name] that starts with [/] replaces [base], and keeps
    its root of two slashes if it has one. *)
Definition joinpath (base : Path) (name : string) : Path :=
  if Str.startswith "/" name then
    if double_root name then "" :: parts name else parts name
  else (base ++ parts name)%list.

(** [str(path)]. *)
Definition str (p : Path) : string :=
  match p with
  | [] => "/"
  | [EmptyString] => "//"
  | _ => String.concat "" (map (fun c => "/" ++ c) p)
  end.

(** A name of one component: no slash in it, not empty and not [.]. *)
Definition simple_name (s : string) : bool :=
  negb (Str.contains "/" s) && negb (String.eqb s "")
  && negb (String.eqb s ".").

(** [Path("..").resolve()] in a process whose working directory is [cwd]
    (as [os.getcwd()] gives it, without symbolic links): its parent, and the
    root for the root. *)
Definition resolve_parent (cwd : Path) : Path := removelast cwd.

End PathLib.

(** ** Exceptions, subprocesses and the world *)

(** An exception of a class derived from [Exception], with the text [str]
    gives of it. *)
Record pyerror := { err_class : string; err_msg : string }.

(** What a coroutine can raise: an [Exception], which [except Exception]
    catches, or the [SystemExit] of [sys.exit], which it does not. *)
Inductive exn :=
| Exception (e : pyerror)
| SystemExit (code : Z).

(** The error of [bytes.decode()].  Python's message goes on to name the
    byte, its position and the reason; the text is cut short here. *)
Definition UnicodeDecodeError : pyerror :=
  {| err_class := "UnicodeDecodeError";
     err_msg := "'utf-8' codec can't decode bytes" |}.

(** A handle on a child process. *)
Definition process := nat.

(** What a finished child process leaves: its exit status and what it wrote.
    [communicate] returns the two streams; the status stays on the process
    object. *)
Record completed := { returncode : Z; stdout : string; stderr : string }.

(** The calls that reach outside the interpreter. *)
Inductive call :=
| MakeDirs (path : Path)                (* os.makedirs(path, exist_ok=True) *)
| PathExists (path : Path)              (* path.exists() *)
| CreateSubprocess (argv : list string) (cwd : option Path)
                                        (* asyncio.create_subprocess_exec *)
| Communicate (proc : process).         (* proc.communicate() *)

(** What each call gives back.  Starting a process and waiting for it can
    raise.  [os.makedirs] is only called on the parent of the working
    directory, an existing directory, where [exist_ok=True] makes it return.
    [Path.exists] answers; that it raises where the parent directory may not
    be searched is left out. *)
Definition answer (c : call) : Type :=
  match c with
  | MakeDirs _ => unit
  | PathExists _ => bool
  | CreateSubprocess _ _ => (pyerror + process)%type
  | Communicate _ => (pyerror + completed)%type
  end.

(** ** Coroutines

    A coroutine is a tree: it returns, raises, prints a line, acquires or
    releases the semaphore of the initializer, or makes a call and goes on
    with its answer. *)
Inductive prog (A : Type) : Type :=
| Ret (a : A)
| Raise (e : exn)
| Print (line : string) (k : prog A)
| Acquire (k : prog A)
| Release (k : prog A)
| Vis (c : call) (k : answer c -> prog A).

Arguments Ret {A} a.
Arguments Raise {A} e.
Arguments Print {A} line k.
Arguments Acquire {A} k.
Arguments Release {A} k.
Arguments Vis {A} c k.

Fixpoint bind {A B : Type} (p : prog A) (f : A -> prog B) : prog B :=
  match p with
  | Ret a => f a
  | Raise e => Raise e
  | Print line k => Print line (bind k f)
  | Acquire k => Acquire (bind k f)
  | Release k => Release (bind k f)
  | Vis c k => Vis c (fun x => bind (k x) f)
  end.

Declare Scope prog_scope.
Delimit Scope prog_scope with prog.
Bind Scope prog_scope with prog.
Notation "x <- p ;; q" := (bind p (fun x => q))
  (at level 61, p at next level, right associativity) : prog_scope.
Notation "p ;; q" := (bind p (fun _ => q))
  (at level 61, right associativity) : prog_scope.
Open Scope prog_scope.

(** [print(line)]. *)
Definition print (line : string) : prog unit := Print line (Ret tt).

(** [try: p except Exception as e: h e]. *)
Fixpoint try_except {A : Type} (p : prog A) (h : pyerror -> prog A) : prog A :=
  match p with
  | Ret a => Ret a
  | Raise (Exception e) => h e
  | Raise (SystemExit code) => Raise (SystemExit code)
  | Print line k => Print line (try_except k h)
  | Acquire k => Acquire (try_except k h)
  | Release k => Release (try_except k h)
  | Vis c k => Vis c (fun x => try_except (k x) h)
  end.

(** The exit of [async with self.semaphore]: the semaphore is released
    whether the block returns or raises. *)
Fixpoint releasing_after {A : Type} (p : prog A) : prog A :=
  match p with
  | Ret a => Release (Ret a)
  | Raise e => Release (Raise e)
  | Print line k => Print line (releasing_after k)
  | Acquire k => Acquire (releasing_after k)
  | Release k => Release (releasing_after k)
  | Vis c k => Vis c (fun x => releasing_after (k x))
  end.

(** [async with self.semaphore: p]. *)
Definition async_with_semaphore {A : Type} (p : prog A) : prog A :=
  Acquire (releasing_after p).

(** [await asyncio.create_subprocess_exec] on the words of [argv], with both
    streams piped, in the directory [cwd] when one is given. *)
Definition create_subprocess_exec (argv : list string) (cwd : option Path)
  : prog process :=
  Vis (CreateSubprocess argv cwd)
      (fun r => match r with
                | inl e => Raise (Exception e)
                | inr proc => Ret proc
                end).

(** [await proc.communicate()]. *)
Definition communicate (proc : process) : prog completed :=
  Vis (Communicate proc)
      (fun r => match r with
                | inl e => Raise (Exception e)
                | inr out => Ret out
                end).

(** [data.decode()]. *)
Definition decode (data : string) : prog string :=
  if Str.utf8_valid (Str.codes data) then Ret data
  else Raise (Exception UnicodeDecodeError).

Definition path_exists (path : Path) : prog bool :=
  Vis (PathExists path) (fun b => Ret b).

Definition makedirs (path : Path) : prog unit :=
  Vis (MakeDirs path) (fun _ => Ret tt).

(** [sys.exit(code)]. *)
Definition sys_exit {A : Type} (code : Z) : prog A := Raise (SystemExit code).

(** ** The initializer *)

(** A repository of the configuration.  Only ["name"] is read; the other keys
    of the dictionary are carried along as they are. *)
Record RepositoryDescriptor := {
  name : string;
  opaque : list (string * string)
}.

(** The fields [__init__] sets.  [semaphore] is the value the
    [asyncio.Semaphore] starts with. *)
Record ProjectInitializer := {
  project_name : string;
  repo_org : string;
  repositories : list RepositoryDescriptor;
  base_dir : Path;
  semaphore : nat
}.

(** [ProjectInitializer(project_name, repo_org, repositories)] in a process
    whose working directory is [cwd]. *)
Definition init (cwd : Path) (project_name repo_org : string)
           (repositories : list RepositoryDescriptor) : ProjectInitializer :=
  {| project_name := project_name;
     repo_org := repo_org;
     repositories := repositories;
     base_dir := PathLib.resolve_parent cwd;
     semaphore := 5 |}.

Definition nl : string := String "010" EmptyString.
(** U+2705 and U+274C, the two marks of the status lines. *)
Definition check_mark : string :=
  String "226" (String "156" (String "133" EmptyString)).
Definition cross_mark : string :=
  String "226" (String "157" (String "140" EmptyString)).

(** The [try] block of [verify_git_ssh]. *)
Definition verify_git_ssh_try (self : ProjectInitializer) : prog bool :=
  proc <- create_subprocess_exec ["ssh"; "-T"; "git@github.com"] None ;;
  out <- communicate proc ;;
  text <- decode (stderr out) ;;
  Ret (Str.contains "successfully authenticated" (Str.lower text)).

Definition verify_git_ssh (self : ProjectInitializer) : prog bool :=
  try_except
    (verify_git_ssh_try self)
    (fun e =>
       print ("Error verifying Git SSH access: " ++ err_msg e) ;;
       Ret false).

(** The [try] block of [check_remote]. *)
Definition check_remote_try (self : ProjectInitializer) (repo_path : Path)
           (expected_remote : string) : prog bool :=
  proc <- create_subprocess_exec ["git"; "remote"; "get-url"; "origin"]
                                 (Some repo_path) ;;
  out <- communicate proc ;;
  text <- decode (stdout out) ;;
  let current_remote := Str.strip text in
  Ret (String.eqb current_remote expected_remote).

Definition check_remote (self : ProjectInitializer) (repo_path : Path)
           (expected_remote : string) : prog bool :=
  try_except
    (check_remote_try self repo_path expected_remote)
    (fun _ => Ret false).

(** The [try] block of [update_repository]. *)
Definition update_repository_try (self : ProjectInitializer) (repo_path : Path)
  : prog bool :=
  fetch_process <- create_subprocess_exec ["git"; "fetch"] (Some repo_path) ;;
  communicate fetch_process ;;
  branch_process <- create_subprocess_exec
                      ["git"; "rev-parse"; "--abbrev-ref"; "HEAD"]
                      (Some repo_path) ;;
  out <- communicate branch_process ;;
  text <- decode (stdout out) ;;
  let current_branch := Str.strip text in
  pull_process <- create_subprocess_exec
                    ["git"; "pull"; "origin"; current_branch]
                    (Some repo_path) ;;
  communicate pull_process ;;
  Ret true.

Definition update_repository (self : ProjectInitializer) (repo_path : Path)
  : prog bool :=
  try_except
    (update_repository_try self repo_path)
    (fun e =>
       print ("Error updating repository: " ++ err_msg e) ;;
       Ret false).

(** The [try] block of [clone_repository]. *)
Definition clone_repository_try (self : ProjectInitializer)
           (repo_name : string) (repo_path : Path) : prog bool :=
  proc <- create_subprocess_exec
            ["git"; "clone";
             "git@github.com:" ++ repo_org self ++ "/" ++ repo_name ++ ".git";
             PathLib.str repo_path]
            None ;;
  communicate proc ;;
  Ret true.

Definition clone_repository (self : ProjectInitializer) (repo_name : string)
           (repo_path : Path) : prog bool :=
  try_except
    (clone_repository_try self repo_name repo_path)
    (fun e =>
       print ("Error cloning repository: " ++ err_msg e) ;;
       Ret false).

Definition process_repository (self : ProjectInitializer)
           (repo : RepositoryDescriptor) : prog unit :=
  async_with_semaphore
    (let repo_name := name repo in
     let repo_path := PathLib.joinpath (base_dir self) repo_name in
     let expected_remote :=
       "git@github.com:" ++ repo_org self ++ "/" ++ repo_name ++ ".git" in
     print (nl ++ "Processing repository: " ++ repo_name) ;;
     present <- path_exists repo_path ;;
     if present then
       print ("Repository " ++ repo_name ++ " exists, verifying...") ;;
       same <- check_remote self repo_path expected_remote ;;
       if same then
         print ("Updating " ++ repo_name ++ "...") ;;
         updated <- update_repository self repo_path ;;
         if updated then
           print (check_mark ++ " " ++ repo_name ++ " updated successfully")
         else
           print (cross_mark ++ " Failed to update " ++ repo_name)
       else
         print (cross_mark ++ " Remote mismatch for " ++ repo_name) ;;
         print ("Expected: " ++ expected_remote) ;;
         print "Please check the repository manually"
     else
       print ("Cloning " ++ repo_name ++ "...") ;;
       cloned <- clone_repository self repo_name repo_path ;;
       if cloned then
         print (check_mark ++ " " ++ repo_name ++ " cloned successfully")
       else
         print (cross_mark ++ " Failed to clone " ++ repo_name)).

(** [run], up to the verification of the SSH access (lines 132 to 143). *)
Definition run_before_gather (self : ProjectInitializer) : prog unit :=
  print ("Initializing project: " ++ project_name self) ;;
  makedirs (base_dir self) ;;
  print (nl ++ "Verifying Git SSH access to GitHub...") ;;
  verified <- verify_git_ssh self ;;
  if negb verified then
    print (cross_mark ++ " Failed to verify Git SSH access to GitHub") ;;
    print "Please check your SSH configuration" ;;
    sys_exit 1
  else
    print (check_mark ++ " Git SSH access verified").

(** The coroutines [run] hands to [asyncio.gather] (line 146). *)
Definition run_tasks (self : ProjectInitializer) : list (prog unit) :=
  map (process_repository self) (repositories self).

(** [run], once [asyncio.gather] has returned (line 149). *)
Definition run_after_gather (self : ProjectInitializer) : prog unit :=
  print (nl ++ check_mark ++ " Project initialization complete!").

(** The configuration [main] is written to build, its bare [true], [false]
    and [null] read as the values of Python; of the keys of a repository
    other than ["name"], which nothing reads, one is kept. *)
Definition config_repository (repo_name : string) : RepositoryDescriptor :=
  {| name := repo_name; opaque := [("github_default_branch", "main")] |}.

Definition config_repositories : list RepositoryDescriptor :=
  map config_repository
      ["terraform-gcp-compute"; "terraform-gcp-networking";
       "terraform-gcp-storage"; "terraform-gcp-monitoring";
       "terraform-gcp-security"; "gcp-deployment"].

(** The initializer [main] is written to build. *)
Definition initializer (cwd : Path) : ProjectInitializer :=
  init cwd "gcp-kubernetes" "HappyPathway" config_repositories.

(** ** Running coroutines *)

(** How a coroutine ends. *)
Inductive result (A : Type) : Type :=
| Returned (a : A)
| Raised (e : exn).

Arguments Returned {A} a.
Arguments Raised {A} e.

(** What an observer of the process sees, in order. *)
Inductive entry :=
| Called (c : call)
| Printed (line : string)
| Acquired
| Released.

(** A task of [asyncio.gather]: what is left of its coroutine, and whether it
    is inside [async with self.semaphore] (a ghost field: the semaphore itself
    only counts). *)
Record task := { holding : bool; code : prog unit }.

Definition finished (p : prog unit) : bool :=
  match p with
  | Ret _ | Raise _ => true
  | _ => false
  end.

Definition raised (p : prog unit) : option exn :=
  match p with
  | Raise e => Some e
  | _ => None
  end.

(** The exit status the interpreter leaves when [asyncio.run(run())] ends
    with [r]: that of [sys.exit], 1 for a traceback, 0 otherwise. *)
Definition exit_status (r : result unit) : Z :=
  match r with
  | Returned _ => 0
  | Raised (SystemExit status) => status
  | Raised (Exception _) => 1
  end.

Section World.

(** The world: a state and what it answers to each call. *)
Variable W : Type.
Variable handle : forall c : call, W -> answer c * W.

(** One coroutine run alone from start to end, the semaphore being free. *)
Fixpoint exec {A : Type} (p : prog A) (w : W) : result A * W * list entry :=
  match p with
  | Ret a => (Returned a, w, [])
  | Raise e => (Raised e, w, [])
  | Print line k =>
    let '(r, w', t) := exec k w in (r, w', Printed line :: t)
  | Acquire k =>
    let '(r, w', t) := exec k w in (r, w', Acquired :: t)
  | Release k =>
    let '(r, w', t) := exec k w in (r, w', Released :: t)
  | Vis c k =>
    let '(x, w1) := handle c w in
    let '(r, w', t) := exec (k x) w1 in (r, w', Called c :: t)
  end.

(** The tasks of [asyncio.gather] and what they share. *)
Record pool := {
  world : W;
  permits : nat;          (* the value of the semaphore *)
  tasks : list task;
  log : list entry
}.

(** One step of a task.  [acquire] waits while the semaphore is at zero;
    [release] adds one. *)
Definition task_next (w : W) (n : nat) (t : task)
  : option (entry * W * nat * task) :=
  match code t with
  | Ret _ => None
  | Raise _ => None
  | Print line k =>
    Some (Printed line, w, n, {| holding := holding t; code := k |})
  | Acquire k =>
    match n with
    | O => None
    | S n' => Some (Acquired, w, n', {| holding := true; code := k |})
    end
  | Release k =>
    Some (Released, w, S n, {| holding := false; code := k |})
  | Vis c k =>
    let '(x, w') := handle c w in
    Some (Called c, w', n, {| holding := holding t; code := k x |})
  end.

(** The event loop lets the task at position [i] take its next step. *)
Definition pool_fire (i : nat) (s : pool) : option pool :=
  match nth_error (tasks s) i with
  | None => None
  | Some t =>
    match task_next (world s) (permits s) t with
    | None => None
    | Some (e, w', n', t') =>
      Some {| world := w';
              permits := n';
              tasks := firstn i (tasks s) ++ t' :: skipn (S i) (tasks s);
              log := log s ++ [e] |}
    end
  end.

(** The event loop is free to choose the task: every interleaving of the
    tasks' steps is a run. *)
Definition pool_step (s s' : pool) : Prop :=
  exists i, pool_fire i s = Some s'.

Inductive pool_steps : pool -> pool -> Prop :=
| steps_done s : pool_steps s s
| steps_next s s1 s2 : pool_step s s1 -> pool_steps s1 s2 -> pool_steps s s2.

(** The steps the event loop takes for the positions of [schedule], in
    order; a position that cannot step is passed over. *)
Fixpoint pool_run (schedule : list nat) (s : pool) : pool :=
  match schedule with
  | [] => s
  | i :: rest =>
    match pool_fire i s with
    | Some s' => pool_run rest s'
    | None => pool_run rest s
    end
  end.

(** The pool [asyncio.gather] starts with. *)
Definition gather (self : ProjectInitializer) (w : W) : pool :=
  {| world := w;
     permits := semaphore self;
     tasks := map (fun p => {| holding := false; code := p |}) (run_tasks self);
     log := [] |}.

(** The tasks inside [async with self.semaphore]. *)
Definition in_flight (s : pool) : nat :=
  length (filter holding (tasks s)).

Definition all_finished (s : pool) : bool :=
  forallb (fun t => finished (code t)) (tasks s).

(** [await initializer.run()] in the world [w]: how it ends and what was
    observed.  It stops before [asyncio.gather] when the first part raises;
    [asyncio.gather] hands on the exception of a task that raises; otherwise
    it waits for every task and the last line is printed. *)
Inductive run (self : ProjectInitializer) (w : W)
  : result unit -> list entry -> Prop :=
| run_stopped e w1 t1 :
    exec (run_before_gather self) w = (Raised e, w1, t1) ->
    run self w (Raised e) t1
| run_task_raised w1 t1 s t e :
    exec (run_before_gather self) w = (Returned tt, w1, t1) ->
    pool_steps (gather self w1) s ->
    In t (tasks s) ->
    raised (code t) = Some e ->
    run self w (Raised e) (t1 ++ log s)
| run_completed w1 t1 s r w2 t2 :
    exec (run_before_gather self) w = (Returned tt, w1, t1) ->
    pool_steps (gather self w1) s ->
    all_finished s = true ->
    (forall t, In t (tasks s) -> raised (code t) = None) ->
    exec (run_after_gather self) (world s) = (r, w2, t2) ->
    run self w r (t1 ++ log s ++ t2).

End World.

Arguments exec {W} handle {A} p w.
Arguments Build_pool {W} world permits tasks log.
Arguments world {W} p.
Arguments permits {W} p.
Arguments tasks {W} p.
Arguments log {W} p.
Arguments task_next {W} handle w n t.
Arguments pool_fire {W} handle i s.
Arguments pool_step {W} handle s s'.
Arguments pool_steps {W} handle _ _.
Arguments steps_done {W} handle s.
Arguments steps_next {W} handle s s1 s2 _ _.
Arguments pool_run {W} handle schedule s.
Arguments gather {W} self w.
Arguments in_flight {W} s.
Arguments all_finished {W} s.
Arguments run {W} handle self w _ _.

(** ** [main]

    The dictionary of line 162 has the bare names [true], [false] and [null]
    among its values; the first to be evaluated is the [true] of
    ["archive_on_destroy"], and Python has no such name. *)
Definition NameError_true : pyerror :=
  {| err_class := "NameError"; err_msg := "name 'true' is not defined" |}.

(** [main()] for a command line [parse_args] accepts, [debug] being whether
    [--debug] was given: building [config] raises before the flag is looked
    at, and neither the dump of the configuration nor the initializer nor
    [asyncio.run] is reached. *)
Definition main (debug : bool) : prog unit :=
  Raise (Exception NameError_true).

(** ** The shape of a task

    What is left of a task that is inside [async with self.semaphore]: lines
    and calls, then the release, then the return; no exception comes out. *)
Fixpoint inside (p : prog unit) : Prop :=
  match p with
  | Print _ k => inside k
  | Vis c k => forall x, inside (k x)
  | Release k => k = Ret tt
  | _ => False
  end.

(** A task that has not entered yet: its next step acquires the semaphore. *)
Definition waiting (p : prog unit) : Prop :=
  exists k, p = Acquire k /\ inside k.

(** A task holds the semaphore exactly while it is inside; otherwise it has
    not entered yet or it has returned. *)
Definition task_ok (t : task) : Prop :=
  if holding t then inside (code t)
  else code t = Ret tt \/ waiting (code t).



(** The permits left and the tasks inside add up to [n], and every task has
    the right shape. *)
Definition pool_inv {W : Type} (n : nat) (s : pool W) : Prop :=
  Forall task_ok (tasks s) /\ permits s + in_flight s = n.

(** ** Observations

    The vocabulary of the properties: what a trace contains, what a task
    reports, and the names the specification uses for what
    [process_repository] computes in local variables. *)

Definition calls (t : list entry) : list call :=
  flat_map (fun e => match e with Called c => [c] | _ => [] end) t.

(** [git <sub> ...] is started. *)
Definition is_git (sub : string) (c : call) : bool :=
  match c with
  | CreateSubprocess (a :: b :: _) _ => String.eqb a "git" && String.eqb b sub
  | _ => false
  end.

Definition is_remote_read : call -> bool := is_git "remote".
Definition is_fetch : call -> bool := is_git "fetch".
Definition is_branch_lookup : call -> bool := is_git "rev-parse".
Definition is_pull : call -> bool := is_git "pull".
Definition is_clone : call -> bool := is_git "clone".

(** The Git operations that change a working tree. *)
Definition mutating (c : call) : bool := is_fetch c || is_pull c || is_clone c.

(** A call made for a repository: a look at its path or a [git] process. *)
Definition for_repository (c : call) : bool :=
  match c with
  | PathExists _ => true
  | CreateSubprocess (a :: _) _ => String.eqb a "git"
  | _ => false
  end.

Definition count (f : call -> bool) (t : list entry) : nat :=
  length (filter f (calls t)).

Definition acquisitions (t : list entry) : nat :=
  length (filter (fun e => match e with Acquired => true | _ => false end) t).

(** The outcomes of a repository task, and the line that reports each. *)
Inductive SyncOutcome :=
| Cloned
| Updated
| RemoteMismatch
| CloneFailed
| UpdateFailed.

Definition status_line (o : SyncOutcome) (repo_name : string) : string :=
  match o with
  | Cloned => check_mark ++ " " ++ repo_name ++ " cloned successfully"
  | Updated => check_mark ++ " " ++ repo_name ++ " updated successfully"
  | RemoteMismatch => cross_mark ++ " Remote mismatch for " ++ repo_name
  | CloneFailed => cross_mark ++ " Failed to clone " ++ repo_name
  | UpdateFailed => cross_mark ++ " Failed to update " ++ repo_name
  end.

Definition outcome_of_line (repo_name line : string) : option SyncOutcome :=
  find (fun o => String.eqb line (status_line o repo_name))
       [Cloned; Updated; RemoteMismatch; CloneFailed; UpdateFailed].

(** The outcomes a trace reports for the repository [repo_name], in order. *)
Definition reported (repo_name : string) (t : list entry) : list SyncOutcome :=
  flat_map (fun e => match e with
                     | Printed line =>
                       match outcome_of_line repo_name line with
                       | Some o => [o]
                       | None => []
                       end
                     | _ => []
                     end) t.

(** The target path of a repository: [repo_path] in [process_repository]. *)
Definition target_path (self : ProjectInitializer) (repo : RepositoryDescriptor)
  : Path :=
  PathLib.joinpath (base_dir self) (name repo).

(** The expected remote URL, in the words of the specification:
    [git@<host>:<org>/<name>.git], the host being github.com. *)
Definition remote_url (org repo_name : string) : string :=
  "git@github.com:" ++ org ++ "/" ++ repo_name ++ ".git".

(** The recorded origin remote of the working tree at [repo_path]: what
    [git remote get-url origin] prints there, as [check_remote] reads it. *)
Definition read_origin (repo_path : Path) : prog string :=
  proc <- create_subprocess_exec ["git"; "remote"; "get-url"; "origin"]
                                 (Some repo_path) ;;
  out <- communicate proc ;;
  text <- decode (stdout out) ;;
  Ret (Str.strip text).

(** ** Scripted worlds

    A world given by a table: which paths exist, which commands cannot be
    started, and what each command leaves when waited for.  Its state is the
    list of the commands started so far; a process handle is a position in
    it. *)
Record script := {
  fs_exists : Path -> bool;
  spawn_error : list string -> option pyerror;
  wait_result : list string -> pyerror + completed
}.

Definition ProcessLookupError : pyerror :=
  {| err_class := "ProcessLookupError"; err_msg := "no such process" |}.

Definition scripted (sc : script) (c : call) (w : list (list string))
  : answer c * list (list string) :=
  match c with
  | MakeDirs _ => (tt, w)
  | PathExists path => (fs_exists sc path, w)
  | CreateSubprocess argv _ =>
    match spawn_error sc argv with
    | Some e => (inl e, w)
    | None => (inr (length w), (w ++ [argv])%list)
    end
  | Communicate proc =>
    (match nth_error w proc with
     | Some argv => wait_result sc argv
     | None => inl ProcessLookupError
     end, w)
  end.

Definition EMFILE : pyerror :=
  {| err_class := "OSError"; err_msg := "[Errno 24] Too many open files" |}.

(** What github.com answers to [ssh -T] when the key is known; the exit
    status of that [ssh] is 1. *)
Definition github_banner : string :=
  "Hi dev! You've successfully authenticated, but GitHub does not provide shell access."
  ++ nl.

(** A workstation: [present] tells the paths that exist, [origin] is the
    remote recorded in every working tree, [refused] the commands that cannot
    be started, [git_status] the exit status of every [git] process and
    [banner] what [ssh] writes to its error stream.  The checked-out branch
    is [main]. *)
Definition workstation (present : Path -> bool) (origin : string)
           (refused : list string -> bool) (git_status : Z) (banner : string)
  : script :=
  {| fs_exists := present;
     spawn_error := fun argv => if refused argv then Some EMFILE else None;
     wait_result := fun argv =>
       inr (if String.eqb (hd "" argv) "ssh" then
              {| returncode := 1; stdout := ""; stderr := banner |}
            else if String.eqb (nth 1 argv "") "remote" then
              {| returncode := git_status; stdout := origin ++ nl; stderr := "" |}
            else if String.eqb (nth 1 argv "") "rev-parse" then
              {| returncode := git_status; stdout := "main" ++ nl; stderr := "" |}
            else
              {| returncode := git_status; stdout := ""; stderr := "" |}) |}.

Definition nothing_refused (argv : list string) : bool := false.

(** The repository of the examples, in a workspace at [/home/dev]. *)
Definition dev_cwd : Path := ["home"; "dev"; "gcp-kubernetes"].
Definition dev : ProjectInitializer := initializer dev_cwd.
Definition storage : RepositoryDescriptor := config_repository "terraform-gcp-storage".
Definition storage_url : string :=
  "git@github.com:HappyPathway/terraform-gcp-storage.git".

(** Worlds of the examples. *)



(** Everything is cloned, with the expected remote, and Git works. *)
Definition all_cloned : script :=
  workstation (fun _ => true) storage_url nothing_refused 0 github_banner.

(** Nothing is cloned yet, and Git works. *)
Definition fresh : script :=
  workstation (fun _ => false) storage_url nothing_refused 0 github_banner.

(** Everything is cloned, with the expected remote, but [git fetch] cannot be
    started. *)
Definition fetch_refused : script :=
  workstation (fun _ => true) storage_url
              (fun argv => String.eqb (nth 1 argv "") "fetch") 0 github_banner.

(** Everything is cloned, from another place. *)
Definition forked : script :=
  workstation (fun _ => true) "https://github.com/dev/terraform-gcp-storage"
              nothing_refused 0 github_banner.

(** Everything is there, but [git] itself cannot be started. *)
Definition no_git : script :=
  workstation (fun _ => true) storage_url
              (fun argv => String.eqb (hd "" argv) "git") 0 github_banner.

(** A host that greets in capitals. *)
Definition shouting : script :=
  workstation (fun _ => false) storage_url nothing_refused 0
              "HI DEV! YOU'VE SUCCESSFULLY AUTHENTICATED".

(** The key is not known to the host. *)
Definition denied : script :=
  workstation (fun _ => false) storage_url nothing_refused 0
              ("git@github.com: Permission denied (publickey)." ++ nl).

Definition read_cmd : list string := ["git"; "remote"; "get-url"; "origin"].
Definition storage_path : Path := ["home"; "dev"; "terraform-gcp-storage"].

(** The six tasks of the configuration, each asked once to step: five enter,
    the sixth waits. *)
Definition six_asked : pool (list (list string)) :=
  pool_run (scripted fresh) [0; 1; 2; 3; 4; 5] (gather dev []).

(** A directory at the target path that is no working tree: [git] prints no
    remote and ends with status 128. *)
Definition plain_directories : script :=
  workstation (fun _ => true) "" nothing_refused 128 github_banner.

(** The six tasks of the configuration, taken in turn until all are done,
    after the probe of the SSH access. *)
Definition ssh_cmd : list string := ["ssh"; "-T"; "git@github.com"].

Definition in_turn (rounds : nat) : list nat :=
  concat (repeat [0; 1; 2; 3; 4; 5] rounds).

Definition six_done : pool (list (list string)) :=
  pool_run (scripted fresh) (in_turn 16) (gather dev [ssh_cmd]).

(** ** More observations *)

(** The lines a trace prints, in order. *)
Definition printed (t : list entry) : list string :=
  flat_map (fun e => match e with Printed line => [line] | _ => [] end) t.

Definition releases (t : list entry) : nat :=
  length (filter (fun e => match e with Released => true | _ => false end) t).


Definition is_makedirs (c : call) : bool :=
  match c with
  | MakeDirs _ => true
  | _ => false
  end.

(** The last line of [run]. *)
Definition completion_banner : string :=
  nl ++ check_mark ++ " Project initialization complete!".


Definition is_acquire (p : prog unit) : bool :=
  match p with
  | Acquire _ => true
  | _ => false
  end.



(** The task has not entered yet. *)
Definition not_entered (t : task) : bool :=
  negb (holding t) && is_acquire (code t).

(** The six calls of a complete update, in order. *)
Definition update_calls (repo_path : Path) (branch : string)
           (p1 p2 p3 : process) : list call :=
  [CreateSubprocess ["git"; "fetch"] (Some repo_path);
   Communicate p1;
   CreateSubprocess ["git"; "rev-parse"; "--abbrev-ref"; "HEAD"]
                    (Some repo_path);
   Communicate p2;
   CreateSubprocess ["git"; "pull"; "origin"; branch] (Some repo_path);
   Communicate p3].

(** An initializer with no repository. *)
Definition empty_project : ProjectInitializer :=
  init dev_cwd "gcp-kubernetes" "HappyPathway" [].


(** An initializer with one repository, and its task taken to its end after
    the probe of the SSH access, where everything is cloned already. *)
Definition storage_project : ProjectInitializer :=
  init dev_cwd "gcp-kubernetes" "HappyPathway" [storage].

Definition storage_done : pool (list (list string)) :=
  pool_run (scripted all_cloned) (repeat 0 20)
           (gather storage_project [ssh_cmd]).

(** What is observed of three runs of [run] that return: the six
    repositories in a fresh workspace, the single repository, and no
    repository at all. *)
Definition fresh_trace : list entry :=
  (snd (exec (scripted fresh) (run_before_gather dev) [])
   ++ log six_done ++ [Printed completion_banner])%list.

Definition storage_trace : list entry :=
  (snd (exec (scripted all_cloned) (run_before_gather storage_project) [])
   ++ log storage_done ++ [Printed completion_banner])%list.

Definition empty_trace : list entry :=
  (snd (exec (scripted fresh) (run_before_gather empty_project) [])
   ++ [] ++ [Printed completion_banner])%list.

(** * Properties *)

(** ** Strings *)

Lemma eqb_append_l (s a b : string) :
  String.eqb (s ++ a) (s ++ b) = String.eqb a b.
Proof.
  induction s as [|c s IH]; cbn; [reflexivity|].
  rewrite Ascii.eqb_refl. exact IH.
Qed.

Lemma append_inv_l (s a b : string) : s ++ a = s ++ b -> a = b.
Proof.
  induction s as [|c s IH]; cbn; intros H; [exact H|].
  injection H as H. exact (IH H).
Qed.

Lemma list_of_append (a b : string) :
  list_ascii_of_string (a ++ b) =
  (list_ascii_of_string a ++ list_ascii_of_string b)%list.
Proof. induction a as [|c a IH]; cbn; [reflexivity|]. now rewrite IH. Qed.

Lemma append_inv_r (s a b : string) : a ++ s = b ++ s -> a = b.
Proof.
  intros H. apply (f_equal list_ascii_of_string) in H.
  rewrite !list_of_append in H. apply app_inv_tail in H.
  rewrite <- (string_of_list_ascii_of_string a),
          <- (string_of_list_ascii_of_string b).
  now rewrite H.
Qed.

(** ** One coroutine against a world *)

Section Execution.

Variable W : Type.
Variable handle : forall c : call, W -> answer c * W.

Ltac crunch :=
  cbn -[String.append PathLib.joinpath PathLib.str Str.strip Str.lower
        Str.contains Str.utf8_valid Str.codes String.eqb count reported
        acquisitions].

(** Case analysis on the next thing the world, or the text it gave, decides;
    what is known already is used instead. *)
Ltac ask :=
  match goal with
  | E : handle ?c ?w = _ |- context [handle ?c ?w] => rewrite E; crunch
  | E : Str.utf8_valid ?l = _ |- context [Str.utf8_valid ?l] => rewrite E; crunch
  | E : String.eqb ?a ?b = _ |- context [String.eqb ?a ?b] => rewrite E; crunch
  | E : Str.contains ?a ?b = _ |- context [Str.contains ?a ?b] => rewrite E; crunch
  | |- context [handle ?c ?w] =>
    let x := fresh "x" in
    let w' := fresh "w" in
    let E := fresh "E" in
    destruct (handle c w) as [x w'] eqn:E; cbn [answer] in x;
    try (destruct x); crunch
  | |- context [Str.utf8_valid ?l] =>
    let E := fresh "E" in destruct (Str.utf8_valid l) eqn:E; crunch
  | |- context [String.eqb (Str.strip ?a) ?b] =>
    let E := fresh "E" in destruct (String.eqb (Str.strip a) b) eqn:E; crunch
  | |- context [Str.contains ?a ?b] =>
    let E := fresh "E" in destruct (Str.contains a b) eqn:E; crunch
  end.

(** A run that is assumed: its equation is taken apart as soon as both sides
    are known. *)
Ltac given :=
  match goal with
  | |- (_, _, _) = (_, _, _) -> _ =>
    let H := fresh "H" in intros H; inversion H; subst; clear H; crunch
  end.

Ltac paths := repeat first [given | ask].

(** A clause about what the world is assumed to answer: the assumption is
    set against what it did answer. *)
Ltac clause :=
  intros;
  repeat match goal with
         | H : (_, _) = (_, _) |- _ => inversion H; subst; clear H
         | H : handle ?c ?w = _, E : handle ?c ?w = _ |- _ => rewrite E in H
         | H : Str.utf8_valid ?l = _, E : Str.utf8_valid ?l = _ |- _ =>
           rewrite E in H; discriminate H
         end;
  try discriminate; repeat split; reflexivity.

Ltac lines := cbn; rewrite ?String.eqb_refl, ?eqb_append_l; cbn.

Ltac open_task :=
  unfold process_repository, async_with_semaphore, target_path, remote_url,
    check_remote, check_remote_try, update_repository, update_repository_try,
    clone_repository, clone_repository_try, read_origin, decode in *.

(** C5: when the target path of a repository does not exist, its task
    returns after exactly one attempt to clone (one [git clone] is started)
    and no step of an update: no fetch, no branch lookup, no pull; neither is
    the origin remote read.  It reports [Cloned] or [CloneFailed]. *)
Theorem clone_when_absent (self : ProjectInitializer)
        (repo : RepositoryDescriptor) (w : W) :
  fst (handle (PathExists (target_path self repo)) w) = false ->
  exists w' t,
    exec handle (process_repository self repo) w = (Returned tt, w', t) /\
    count is_clone t = 1 /\
    count is_fetch t = 0 /\
    count is_branch_lookup t = 0 /\
    count is_pull t = 0 /\
    count is_remote_read t = 0 /\
    (reported (name repo) t = [Cloned] \/ reported (name repo) t = [CloneFailed]).
Proof.
  open_task. crunch.
  repeat ask; intros H; try discriminate H;
    do 2 eexists; (split; [reflexivity|]); lines; auto 10.
Qed.

(** C1: when the target path exists and the origin remote recorded there
    differs from the expected URL, the task starts no fetch, no pull and no
    clone; it makes no call beyond the look at the path and the reading of
    the remote, so that the world is left as that reading left it; and it
    reports [RemoteMismatch], and nothing else. *)
Theorem remote_mismatch_stops (self : ProjectInitializer)
        (repo : RepositoryDescriptor) (w w1 w2 : W) (url : string)
        (t0 : list entry) :
  handle (PathExists (target_path self repo)) w = (true, w1) ->
  exec handle (read_origin (target_path self repo)) w1 = (Returned url, w2, t0) ->
  url <> remote_url (repo_org self) (name repo) ->
  exists t,
    exec handle (process_repository self repo) w = (Returned tt, w2, t) /\
    calls t = PathExists (target_path self repo) :: calls t0 /\
    count mutating t = 0 /\
    reported (name repo) t = [RemoteMismatch].
Proof.
  intros Hex Hread Hne. revert Hread. open_task. crunch. rewrite Hex. crunch.
  paths;
    try (match goal with
         | H : String.eqb _ _ = true |- _ =>
           apply String.eqb_eq in H; contradiction
         end);
    eexists; (split; [reflexivity|]); lines; auto.
Qed.

(** C9: when the target path exists and the reading of the origin remote
    itself fails (the [git] process cannot be started, waiting for it raises,
    or what it printed cannot be decoded), [check_remote] returns false, and
    the task reports [RemoteMismatch], not a failed update or clone; it starts
    no fetch, no pull and no clone, and makes no further call. *)
Theorem unreadable_remote_is_mismatch (self : ProjectInitializer)
        (repo : RepositoryDescriptor) (w w1 w2 : W) (e : exn)
        (t0 : list entry) :
  handle (PathExists (target_path self repo)) w = (true, w1) ->
  exec handle (read_origin (target_path self repo)) w1 = (Raised e, w2, t0) ->
  exec handle
       (check_remote self (target_path self repo)
                     (remote_url (repo_org self) (name repo))) w1
  = (Returned false, w2, t0) /\
  exists t,
    exec handle (process_repository self repo) w = (Returned tt, w2, t) /\
    calls t = PathExists (target_path self repo) :: calls t0 /\
    count mutating t = 0 /\
    reported (name repo) t = [RemoteMismatch].
Proof.
  intros Hex Hread. revert Hread. open_task. crunch. rewrite Hex. crunch.
  paths; (split; [reflexivity|]);
    eexists; (split; [reflexivity|]); lines; auto.
Qed.


(** C6, as amended: when the target path exists and the origin remote
    recorded there equals the expected URL, the task never starts a clone and
    starts exactly one fetch, then at most one branch lookup, then at most
    one pull.  When no step of the update raises, it starts exactly one of
    each, in this order and in the target path, the pull being
    [git pull origin <branch>] for the branch the lookup printed, and reports
    [Updated].  When a step raises, the steps after it are skipped (no branch
    lookup and no pull after a fetch that cannot be started or waited for, no
    pull after a lookup that cannot be started, waited for or decoded), the
    task makes no call beyond those made up to the exception, and it reports
    [UpdateFailed]. *)
Theorem update_when_remote_matches (self : ProjectInitializer)
        (repo : RepositoryDescriptor) (w w1 w2 : W) (t0 : list entry) :
  let p := target_path self repo in
  let fetch := CreateSubprocess ["git"; "fetch"] (Some p) in
  let lookup :=
    CreateSubprocess ["git"; "rev-parse"; "--abbrev-ref"; "HEAD"] (Some p) in
  handle (PathExists p) w = (true, w1) ->
  exec handle (read_origin p) w1
  = (Returned (remote_url (repo_org self) (name repo)), w2, t0) ->
  exists w' t,
    exec handle (process_repository self repo) w = (Returned tt, w', t) /\
    count is_clone t = 0 /\
    count is_fetch t = 1 /\
    count is_pull t <= count is_branch_lookup t /\
    count is_branch_lookup t <= 1 /\
    (reported (name repo) t = [Updated] \/
     reported (name repo) t = [UpdateFailed]) /\
    (forall b w3 t1,
        exec handle (update_repository_try self p) w2 = (Returned b, w3, t1) ->
        reported (name repo) t = [Updated] /\
        exists branch p1 p2 p3 out wa wb,
          calls t =
          (PathExists p :: calls t0 ++
           [fetch; Communicate p1; lookup; Communicate p2;
            CreateSubprocess ["git"; "pull"; "origin"; branch] (Some p);
            Communicate p3])%list /\
          handle (Communicate p2) wa = (inr out, wb) /\
          branch = Str.strip (stdout out)) /\
    (forall e w3 t1,
        exec handle (update_repository_try self p) w2 = (Raised e, w3, t1) ->
        reported (name repo) t = [UpdateFailed] /\
        w' = w3 /\
        calls t = (PathExists p :: calls t0 ++ calls t1)%list) /\
    (forall e w3,
        handle fetch w2 = (inl e, w3) ->
        count is_branch_lookup t = 0 /\ count is_pull t = 0) /\
    (forall p1 w3 e w4,
        handle fetch w2 = (inr p1, w3) ->
        handle (Communicate p1) w3 = (inl e, w4) ->
        count is_branch_lookup t = 0 /\ count is_pull t = 0) /\
    (forall p1 w3 o1 w4 e w5,
        handle fetch w2 = (inr p1, w3) ->
        handle (Communicate p1) w3 = (inr o1, w4) ->
        handle lookup w4 = (inl e, w5) ->
        count is_pull t = 0) /\
    (forall p1 w3 o1 w4 p2 w5 e w6,
        handle fetch w2 = (inr p1, w3) ->
        handle (Communicate p1) w3 = (inr o1, w4) ->
        handle lookup w4 = (inr p2, w5) ->
        handle (Communicate p2) w5 = (inl e, w6) ->
        count is_pull t = 0) /\
    (forall p1 w3 o1 w4 p2 w5 o2 w6,
        handle fetch w2 = (inr p1, w3) ->
        handle (Communicate p1) w3 = (inr o1, w4) ->
        handle lookup w4 = (inr p2, w5) ->
        handle (Communicate p2) w5 = (inr o2, w6) ->
        Str.utf8_valid (Str.codes (stdout o2)) = false ->
        count is_pull t = 0).
Proof.
  cbv zeta. intros Hex Hread. revert Hread. open_task. crunch.
  rewrite Hex. crunch.
  paths;
    try (match goal with
         | E : String.eqb _ _ = false, H : Str.strip _ = _ |- _ =>
           apply String.eqb_neq in E; exfalso; apply E; exact H
         end);
    do 2 eexists; (split; [reflexivity|]); lines;
    do 5 (split; [solve [auto | lia]|]);
    (split; [intros b w9 t9 Hb; try discriminate Hb;
             (split; [reflexivity|]); do 7 eexists;
             (split; [reflexivity|]); (split; [eassumption | reflexivity])|]);
    do 5 (split; [clause|]); clause.
Qed.

(** C7: the expected remote URL of a repository is
    [git@github.com:<org>/<name>.git]: it is the URL the task hands to
    [git clone] when the target path does not exist, and the URL the recorded
    remote is compared with when it exists (a mismatch is reported exactly
    when they differ).  A different organization gives a different URL, and
    so does a different name; the task, and with it the URL, depends on
    nothing else of the descriptor. *)
Theorem remote_url_is_determined (self : ProjectInitializer)
        (repo : RepositoryDescriptor) (w : W) :
  let t := snd (exec handle (process_repository self repo) w) in
  (forall w1,
      handle (PathExists (target_path self repo)) w = (false, w1) ->
      In (CreateSubprocess
            ["git"; "clone"; remote_url (repo_org self) (name repo);
             PathLib.str (target_path self repo)] None)
         (calls t)) /\
  (forall w1 u w2 t0,
      handle (PathExists (target_path self repo)) w = (true, w1) ->
      exec handle (read_origin (target_path self repo)) w1
      = (Returned u, w2, t0) ->
      (reported (name repo) t = [RemoteMismatch] <->
       u <> remote_url (repo_org self) (name repo))) /\
  (forall org org', remote_url org (name repo) = remote_url org' (name repo) ->
                    org = org') /\
  (forall n n', remote_url (repo_org self) n = remote_url (repo_org self) n' ->
                n = n') /\
  (forall repo', name repo' = name repo ->
                 process_repository self repo' = process_repository self repo).
Proof.
  cbv zeta. split; [|split; [|split; [|split]]].
  - intros w1 Hex. open_task. crunch. rewrite Hex. crunch.
    paths; lines; auto.
  - intros w1 u w2 t0 Hex Hread. revert Hread. open_task. crunch.
    rewrite Hex. crunch.
    paths; lines;
      match goal with
      | E : String.eqb _ _ = true |- _ =>
        apply String.eqb_eq in E;
        split; intros H; [discriminate H | exfalso; apply H; exact E]
      | E : String.eqb _ _ = false |- _ =>
        apply String.eqb_neq in E;
        split; intros H; [exact E | reflexivity]
      end.
  - unfold remote_url. intros org org' H.
    apply append_inv_l in H. apply append_inv_r in H. exact H.
  - unfold remote_url. intros n n' H.
    do 3 apply append_inv_l in H. apply append_inv_r in H. exact H.
  - intros repo' H. unfold process_repository. now rewrite H.
Qed.

(** C8, as amended: [verify_git_ssh] always returns, and returns true exactly
    when the [ssh] process is started and waited for without an exception,
    what it wrote to its error stream can be decoded, and that text, put in
    lower case, contains [successfully authenticated]; the exit status of
    [ssh] is not looked at.  When a step of the probe raises, it returns
    false. *)
Theorem verify_git_ssh_scans_stderr (self : ProjectInitializer) (w : W) :
  exists b w' t,
    exec handle (verify_git_ssh self) w = (Returned b, w', t) /\
    (b = true <->
     exists proc w1 out w2,
       handle (CreateSubprocess ["ssh"; "-T"; "git@github.com"] None) w
       = (inr proc, w1) /\
       handle (Communicate proc) w1 = (inr out, w2) /\
       Str.utf8_valid (Str.codes (stderr out)) = true /\
       Str.contains "successfully authenticated" (Str.lower (stderr out))
       = true) /\
    (forall e w1 t1,
        exec handle (verify_git_ssh_try self) w = (Raised e, w1, t1) ->
        b = false).
Proof.
  unfold verify_git_ssh, verify_git_ssh_try, decode. crunch.
  destruct (handle (CreateSubprocess _ None) w) as [[e|proc] w1] eqn:E1; crunch.
  { do 3 eexists. split; [reflexivity|]. split; [|auto].
    split; [discriminate|]. intros (? & ? & ? & ? & H & _). discriminate H. }
  destruct (handle (Communicate proc) w1) as [[e|out] w2] eqn:E2; crunch.
  { do 3 eexists. split; [reflexivity|]. split; [|auto].
    split; [discriminate|].
    intros (? & ? & ? & ? & H & H' & _). inversion H; subst.
    rewrite E2 in H'. discriminate H'. }
  destruct (Str.utf8_valid (Str.codes (stderr out))) eqn:E3; crunch.
  2:{ do 3 eexists. split; [reflexivity|]. split; [|auto].
      split; [discriminate|].
      intros (? & ? & ? & ? & H & H' & H'' & _). inversion H; subst.
      rewrite E2 in H'. inversion H'; subst. congruence. }
  do 3 eexists. split; [reflexivity|]. split.
  - split.
    + intros Hb. exists proc, w1, out, w2. auto.
    + intros (? & ? & ? & ? & H & H' & _ & H''). inversion H; subst.
      rewrite E2 in H'. inversion H'; subst. exact H''.
  - intros e w3 t1 H. discriminate H.
Qed.

(** *** Paths *)

Lemma contains_slash_cons (c : ascii) (s : string) :
  Str.contains "/" (String c s) = false ->
  c <> "/"%char /\ Str.contains "/" s = false.
Proof.
  change (Str.contains "/" (String c s))
    with (if (if Ascii.ascii_dec "/" c then String.prefix "" s else false)
          then true else Str.contains "/" s).
  destruct (Ascii.ascii_dec "/" c) as [<-|Hc].
  - destruct s; discriminate.
  - intros H. split; [congruence | exact H].
Qed.

Lemma split_slash_none (s : string) :
  Str.contains "/" s = false -> PathLib.split_slash s = (s, None).
Proof.
  induction s as [|c s IH]; [reflexivity|].
  intros H. apply contains_slash_cons in H as [Hc H].
  cbn [PathLib.split_slash]. rewrite (IH H).
  destruct (Ascii.eqb c "/") eqn:E; [|reflexivity].
  apply Ascii.eqb_eq in E. contradiction.
Qed.

Lemma parts_simple (n : string) :
  PathLib.simple_name n = true -> PathLib.parts n = [n].
Proof.
  unfold PathLib.simple_name, PathLib.parts. intros H.
  apply andb_prop in H as [H H3]. apply andb_prop in H as [H1 H2].
  apply negb_true_iff in H1, H2, H3.
  destruct n as [|c n]; [discriminate H2|].
  cbn [String.length PathLib.split_fuel].
  rewrite (split_slash_none _ H1). cbn -[String.eqb]. rewrite H2, H3.
  reflexivity.
Qed.

Lemma simple_not_rooted (n : string) :
  PathLib.simple_name n = true -> Str.startswith "/" n = false.
Proof.
  unfold PathLib.simple_name. intros H.
  apply andb_prop in H as [H _]. apply andb_prop in H as [H1 _].
  apply negb_true_iff in H1.
  destruct n as [|c n]; [reflexivity|].
  apply contains_slash_cons in H1 as [Hc _].
  unfold Str.startswith.
  change (String.prefix "/" (String c n))
    with (if Ascii.ascii_dec "/" c then String.prefix "" n else false).
  destruct (Ascii.ascii_dec "/" c); [congruence | reflexivity].
Qed.

Lemma append_assoc (a b c : string) : (a ++ b) ++ c = a ++ b ++ c.
Proof. induction a as [|x a IH]; cbn; [reflexivity | now rewrite IH]. Qed.

Lemma concat_slashed (p : Path) (n : string) :
  String.concat "" (map (fun c => "/" ++ c) (p ++ [n])) =
  String.concat "" (map (fun c => "/" ++ c) p) ++ "/" ++ n.
Proof.
  induction p as [|a p IH]; [reflexivity|].
  destruct p as [|b p]; [reflexivity|].
  change (String.concat "" (map (fun c => "/" ++ c) ((a :: b :: p) ++ [n])))
    with (("/" ++ a)
          ++ String.concat "" (map (fun c => "/" ++ c) ((b :: p) ++ [n]))).
  rewrite IH.
  change (String.concat "" (map (fun c => "/" ++ c) (a :: b :: p)))
    with (("/" ++ a)
          ++ String.concat "" (map (fun c => "/" ++ c) (b :: p))).
  symmetry. apply append_assoc.
Qed.

Lemma str_of_child (p : Path) (n : string) :
  n <> "" ->
  PathLib.str (p ++ [n])%list =
  String.concat "" (map (fun c => "/" ++ c) p) ++ "/" ++ n.
Proof.
  intros Hn. rewrite <- concat_slashed. unfold PathLib.str.
  destruct p as [|a p]; cbn [app].
  - destruct n; [congruence | reflexivity].
  - destruct a; [|reflexivity]. destruct p; reflexivity.
Qed.

(** C10: the base directory is set when the initializer is built, to the
    parent of the working directory (the working directory less its last
    component, the root for the root), and the task of a repository touches
    one path only, the base directory joined with the name of the repository:
    it is the path looked at, the directory every [git] process of the update
    is started in, and the target handed to [git clone].  For a name of one
    component that path is the base directory with the name as one more
    component, written as the base directory, a slash and the name. *)
Theorem target_is_base_joined_with_name (cwd : Path) (pn org : string)
        (repos : list RepositoryDescriptor) (repo : RepositoryDescriptor)
        (w : W) :
  let self := init cwd pn org repos in
  let target := target_path self repo in
  (forall parent d, cwd = (parent ++ [d])%list -> base_dir self = parent) /\
  (cwd = [] -> base_dir self = []) /\
  (PathLib.simple_name (name repo) = true ->
   target = (base_dir self ++ [name repo])%list /\
   PathLib.str target =
   String.concat "" (map (fun c => "/" ++ c) (base_dir self))
   ++ "/" ++ name repo) /\
  Forall (fun c => match c with
                   | PathExists p => p = target
                   | CreateSubprocess argv (Some d) => d = target
                   | CreateSubprocess argv None =>
                     exists url, argv = ["git"; "clone"; url; PathLib.str target]
                   | Communicate _ => True
                   | MakeDirs _ => False
                   end)
         (calls (snd (exec handle (process_repository self repo) w))).
Proof.
  cbv zeta. split; [|split; [|split]].
  - intros parent d ->. cbn. unfold PathLib.resolve_parent.
    apply removelast_last.
  - intros ->. reflexivity.
  - intros Hn.
    assert (Ht : target_path (init cwd pn org repos) repo
                 = (PathLib.resolve_parent cwd ++ [name repo])%list).
    { unfold target_path, PathLib.joinpath. cbn [base_dir init].
      now rewrite (simple_not_rooted _ Hn), (parts_simple _ Hn). }
    split; [exact Ht|]. rewrite Ht. apply str_of_child.
    intros E. unfold PathLib.simple_name in Hn. rewrite E in Hn.
    discriminate Hn.
  - open_task. crunch.
    paths; repeat constructor; eexists; reflexivity.
Qed.

(** *** Exceptions stay inside *)






(** The first part of [run]: it goes on exactly when the verification
    returned true, and stops with [sys.exit(1)] otherwise; no task is started
    in it and no call is made for a repository. *)
Lemma run_before_gather_spec (self : ProjectInitializer) (w : W) :
  exists b w1 tv t,
    exec handle (verify_git_ssh self)
         (snd (handle (MakeDirs (base_dir self)) w))
    = (Returned b, w1, tv) /\
    exec handle (run_before_gather self) w
    = (if b then Returned tt else Raised (SystemExit 1), w1, t) /\
    acquisitions t = 0 /\
    count for_repository t = 0.
Proof.
  unfold run_before_gather, verify_git_ssh, verify_git_ssh_try, decode. crunch.
  destruct (handle (MakeDirs (base_dir self)) w) as [[] w0]. crunch.
  paths; do 4 eexists; (split; [reflexivity|]); (split; [reflexivity|]);
    split; reflexivity.
Qed.

(** ** The tasks of [asyncio.gather] *)

Lemma in_flight_split (l1 l2 : list task) (t : task) :
  length (filter holding (l1 ++ t :: l2)) =
  length (filter holding l1) + (if holding t then 1 else 0)
  + length (filter holding l2).
Proof.
  rewrite filter_app, length_app. cbn.
  destruct (holding t); cbn; lia.
Qed.

Lemma firstn_middle (l1 l2 : list task) (t : task) :
  firstn (length l1) (l1 ++ t :: l2) = l1.
Proof.
  rewrite firstn_app, firstn_all, Nat.sub_diag. cbn. apply app_nil_r.
Qed.

Lemma skipn_middle (l1 l2 : list task) (t : task) :
  skipn (S (length l1)) (l1 ++ t :: l2) = l2.
Proof.
  rewrite skipn_app, skipn_all2 by lia.
  replace (S (length l1) - length l1) with 1 by lia. reflexivity.
Qed.

Lemma nth_error_middle (l1 l2 : list task) (t : task) :
  nth_error (l1 ++ t :: l2) (length l1) = Some t.
Proof.
  rewrite nth_error_app2 by lia. now rewrite Nat.sub_diag.
Qed.

(** A step of the pool is a step of one task, the others staying put. *)
Lemma pool_fire_inv (i : nat) (s s' : pool W) :
  pool_fire handle i s = Some s' ->
  exists l1 t l2 e w' n' t',
    i = length l1 /\
    tasks s = (l1 ++ t :: l2)%list /\
    task_next handle (world s) (permits s) t = Some (e, w', n', t') /\
    s' = {| world := w'; permits := n'; tasks := (l1 ++ t' :: l2)%list;
            log := (log s ++ [e])%list |}.
Proof.
  unfold pool_fire.
  destruct (nth_error (tasks s) i) as [t|] eqn:En; [|discriminate].
  destruct (task_next handle (world s) (permits s) t)
    as [[[[e w'] n'] t']|] eqn:Et; [|discriminate].
  intros H; injection H as <-.
  apply nth_error_split in En. destruct En as (l1 & l2 & Hl & Hlen).
  exists l1, t, l2, e, w', n', t'.
  split; [symmetry; exact Hlen|]. split; [exact Hl|]. split; [exact Et|].
  rewrite Hl, <- Hlen. f_equal.
  f_equal; [apply firstn_middle | f_equal; apply skipn_middle].
Qed.

Lemma pool_fire_at (w : W) (n : nat) (l1 l2 : list task) (t : task)
      (lg : list entry) (e : entry) (w' : W) (n' : nat) (t' : task) :
  task_next handle w n t = Some (e, w', n', t') ->
  pool_fire handle (length l1)
            {| world := w; permits := n; tasks := (l1 ++ t :: l2)%list;
               log := lg |}
  = Some {| world := w'; permits := n'; tasks := (l1 ++ t' :: l2)%list;
            log := (lg ++ [e])%list |}.
Proof.
  intros Ht. unfold pool_fire. cbn [tasks world permits log].
  rewrite nth_error_middle, Ht. do 2 f_equal.
  f_equal; [apply firstn_middle | f_equal; apply skipn_middle].
Qed.


Lemma pool_run_steps (schedule : list nat) (s : pool W) :
  pool_steps handle s (pool_run handle schedule s).
Proof.
  revert s. induction schedule as [|i rest IH]; intros s; cbn.
  - apply steps_done.
  - destruct (pool_fire handle i s) as [s'|] eqn:E; [|apply IH].
    eapply steps_next; [exists i; exact E | apply IH].
Qed.

(** The body of a task, once entered, has the shape [inside] asks for. *)
Lemma process_repository_waiting (self : ProjectInitializer)
      (repo : RepositoryDescriptor) :
  waiting (process_repository self repo).
Proof.
  eexists. split; [reflexivity|].
  open_task. unfold path_exists.
  repeat (crunch;
          first [ reflexivity
                | match goal with
                  | |- forall x, _ =>
                    let x := fresh "x" in
                    intros x; cbn [answer] in x;
                    match type of x with
                    | (_ + _)%type => destruct x
                    | bool => destruct x
                    | _ => idtac
                    end
                  | |- context [Str.utf8_valid ?l] => destruct (Str.utf8_valid l)
                  | |- context [String.eqb ?a ?b] => destruct (String.eqb a b)
                  end ]).
Qed.

Lemma gather_inv (self : ProjectInitializer) (w : W) :
  pool_inv (semaphore self) (gather self w).
Proof.
  unfold pool_inv, gather, in_flight, run_tasks. cbn.
  induction (repositories self) as [|repo l [IH1 IH2]]; cbn.
  - split; [constructor | lia].
  - split; [|exact IH2].
    constructor; [|exact IH1].
    right. apply process_repository_waiting.
Qed.

(** The invariant of the pool: a step keeps it. *)
Lemma pool_fire_keeps_inv (n i : nat) (s s' : pool W) :
  pool_fire handle i s = Some s' -> pool_inv n s -> pool_inv n s'.
Proof.
  intros Hf [Hok Hn].
  apply pool_fire_inv in Hf
    as (l1 & t & l2 & e & w' & n' & t' & _ & Hl & Ht & ->).
  unfold pool_inv, in_flight in *. cbn.
  rewrite Hl in *. rewrite in_flight_split in *.
  apply Forall_app in Hok as [H1 H2].
  inversion_clear H2 as [|? ? Hok H2'].
  rewrite Forall_app.
  destruct t as [h p]. unfold task_next in Ht. unfold task_ok in Hok.
  cbn in *.
  destruct p as [a|ex|line k|k|k|c k]; try discriminate Ht.
  - injection Ht as <- <- <- <-.
    split; [split; [exact H1 | constructor; [|exact H2']] | exact Hn].
    unfold task_ok; cbn.
    destruct h; [exact Hok|].
    destruct Hok as [Hk | (k' & Hk & _)]; discriminate Hk.
  - destruct h; [contradiction|].
    destruct Hok as [Hk | (k' & Hk & Hin)]; [discriminate Hk|].
    injection Hk as <-.
    destruct (permits s) as [|m]; [discriminate Ht|].
    injection Ht as <- <- <- <-.
    split; [split; [exact H1 | constructor; [exact Hin | exact H2']] | cbn; lia].
  - destruct h.
    2:{ destruct Hok as [Hk | (k' & Hk & _)]; discriminate Hk. }
    injection Ht as <- <- <- <-.
    split; [split; [exact H1 | constructor; [|exact H2']] | cbn in *; lia].
    unfold task_ok; cbn. left. exact Hok.
  - destruct (handle c (world s)) as [x w1].
    injection Ht as <- <- <- <-.
    split; [split; [exact H1 | constructor; [|exact H2']] | exact Hn].
    unfold task_ok; cbn.
    destruct h; [apply Hok|].
    destruct Hok as [Hk | (k' & Hk & _)]; discriminate Hk.
Qed.

Lemma pool_steps_keep_inv (n : nat) (s s' : pool W) :
  pool_steps handle s s' -> pool_inv n s -> pool_inv n s'.
Proof.
  induction 1 as [|s s1 s2 [i Hf] _ IH]; intros Hinv; [exact Hinv|].
  apply IH. eapply pool_fire_keeps_inv; eauto.
Qed.

(** In no state the pool can reach are more tasks inside than the semaphore
    started with. *)
Lemma tasks_in_flight_bounded (self : ProjectInitializer) (w : W)
      (s : pool W) :
  pool_steps handle (gather self w) s ->
  in_flight s <= semaphore self /\
  permits s + in_flight s = semaphore self /\
  Forall task_ok (tasks s) /\
  (forall i s' c,
      pool_fire handle i s = Some s' ->
      log s' = (log s ++ [Called c])%list ->
      exists t, nth_error (tasks s) i = Some t /\ holding t = true).
Proof.
  intros Hsteps.
  destruct (pool_steps_keep_inv _ _ _ Hsteps (gather_inv self w)) as [Hok Hn].
  split; [lia|]. split; [exact Hn|]. split; [exact Hok|].
  intros i s' c Hf Hlog.
  apply pool_fire_inv in Hf
    as (l1 & t & l2 & e & w' & n' & t' & Hi & Hl & Ht & ->).
  cbn in Hlog. apply app_inv_head in Hlog. injection Hlog as ->.
  exists t. split.
  - rewrite Hl, Hi. apply nth_error_middle.
  - rewrite Hl in Hok. apply Forall_app in Hok as [_ H2].
    inversion_clear H2 as [|? ? Hok _].
    destruct t as [h p]. unfold task_next in Ht. unfold task_ok in Hok.
    cbn in *.
    destruct h; [reflexivity|].
    destruct Hok as [Hk | (k' & Hk & _)]; subst p; cbn in Ht;
      [discriminate Ht|].
    destruct (permits s); inversion Ht.
Qed.

(** C4: the semaphore [__init__] builds starts at 5, and in every state the
    tasks of [asyncio.gather] can reach, however the event loop interleaves
    them and however many repositories there are, at most 5 tasks are inside
    [async with self.semaphore]: the permits left and the tasks inside add up
    to 5.  A task that is not inside has either returned or not entered yet,
    and a task that is inside goes on, through its lines and calls, to its
    release; so a step that starts a process, waits for one or looks at a
    path is always taken by a task that holds the semaphore. *)
Theorem semaphore_bounds_tasks_in_flight (cwd : Path) (pn org : string)
        (repos : list RepositoryDescriptor) (w : W) (s : pool W) :
  let self := init cwd pn org repos in
  pool_steps handle (gather self w) s ->
  semaphore self = 5 /\
  in_flight s <= 5 /\
  permits s + in_flight s = 5 /\
  Forall task_ok (tasks s) /\
  (forall i s' c,
      pool_fire handle i s = Some s' ->
      log s' = (log s ++ [Called c])%list ->
      exists t, nth_error (tasks s) i = Some t /\ holding t = true).
Proof.
  intros self Hsteps. split; [reflexivity|].
  exact (tasks_in_flight_bounded self w s Hsteps).
Qed.





(** No task of a pool that [asyncio.gather] can reach has raised. *)
Lemma no_task_raises (self : ProjectInitializer) (w : W) (s : pool W)
      (t : task) :
  pool_steps handle (gather self w) s -> In t (tasks s) ->
  raised (code t) = None.
Proof.
  intros Hsteps Hin.
  destruct (pool_steps_keep_inv _ _ _ Hsteps (gather_inv self w)) as [Hok _].
  rewrite Forall_forall in Hok. specialize (Hok t Hin).
  destruct t as [h p]. unfold task_ok in Hok. cbn in *.
  destruct p; try reflexivity.
  destruct h; [contradiction|].
  destruct Hok as [Hk | (k & Hk & _)]; discriminate Hk.
Qed.

(** *** The tasks always go on, and not forever *)











(** C3: the code misses the claim.  [main] stops on its configuration: for
    every command line [parse_args] accepts it raises [NameError] on the
    bare [true] of line 162, before the initializer is built, so that the
    interpreter leaves status 1 although no verification of the SSH access
    has failed: none was made, no call at all and no line printed. *)
Theorem main_stops_on_its_configuration (debug : bool) (w : W) :
  exec handle (main debug) w = (Raised (Exception NameError_true), w, []) /\
  exit_status (fst (fst (exec handle (main debug) w))) = 1%Z /\
  calls (snd (exec handle (main debug) w)) = [] /\
  printed (snd (exec handle (main debug) w)) = [].
Proof. repeat split. Qed.

(** ** More on the methods *)

(** X1: [check_remote] always returns, and returns true exactly when
    [git remote get-url origin] is started in the repository and waited for
    without an exception, its output can be decoded and, stripped of the
    white space around it, is the expected URL; neither the exit status nor
    the error stream of [git] is looked at. *)
Theorem check_remote_compares_stripped_stdout (self : ProjectInitializer)
        (p : Path) (expected : string) (w : W) :
  exists b w' t,
    exec handle (check_remote self p expected) w = (Returned b, w', t) /\
    (b = true <->
     exists proc w1 out w2,
       handle (CreateSubprocess ["git"; "remote"; "get-url"; "origin"] (Some p))
              w
       = (inr proc, w1) /\
       handle (Communicate proc) w1 = (inr out, w2) /\
       Str.utf8_valid (Str.codes (stdout out)) = true /\
       Str.strip (stdout out) = expected).
Proof.
  unfold check_remote, check_remote_try, decode. crunch.
  destruct (handle (CreateSubprocess _ (Some p)) w) as [[e|proc] w1] eqn:E1;
    crunch.
  { do 3 eexists. split; [reflexivity|].
    split; [discriminate|]. intros (? & ? & ? & ? & H & _). discriminate H. }
  destruct (handle (Communicate proc) w1) as [[e|out] w2] eqn:E2; crunch.
  { do 3 eexists. split; [reflexivity|].
    split; [discriminate|].
    intros (? & ? & ? & ? & H & H' & _). inversion H; subst.
    rewrite E2 in H'. discriminate H'. }
  destruct (Str.utf8_valid (Str.codes (stdout out))) eqn:E3; crunch.
  2:{ do 3 eexists. split; [reflexivity|].
      split; [discriminate|].
      intros (? & ? & ? & ? & H & H' & H'' & _). inversion H; subst.
      rewrite E2 in H'. inversion H'; subst. congruence. }
  do 3 eexists. split; [reflexivity|]. split.
  - intros Hb. apply String.eqb_eq in Hb. exists proc, w1, out, w2. auto.
  - intros (? & ? & ? & ? & H & H' & _ & H''). inversion H; subst.
    rewrite E2 in H'. inversion H'; subst. apply String.eqb_refl.
Qed.

(** X2: [check_remote] is silent and only reads: whatever happens it prints
    nothing, starts the one process [git remote get-url origin] in the
    repository, waits for it at most once, and makes no other call. *)
Theorem check_remote_only_reads (self : ProjectInitializer) (p : Path)
        (expected : string) (w : W) :
  let t := snd (exec handle (check_remote self p expected) w) in
  t = [Called (CreateSubprocess ["git"; "remote"; "get-url"; "origin"] (Some p))]
  \/ exists proc,
      t = [Called (CreateSubprocess ["git"; "remote"; "get-url"; "origin"]
                                    (Some p));
           Called (Communicate proc)].
Proof.
  unfold check_remote, check_remote_try, decode. crunch.
  paths; first [left; reflexivity | right; eexists; reflexivity].
Qed.

(** X3: [verify_git_ssh] starts one process, [ssh -T git@github.com], in no
    particular directory, waits for it at most once, and makes no other call;
    it prints nothing when the probe runs through, and the one line
    [Error verifying Git SSH access: <message>], with the message of the
    exception, when a step of the probe raises. *)
Theorem verify_git_ssh_probes_once (self : ProjectInitializer) (w : W) :
  let t := snd (exec handle (verify_git_ssh self) w) in
  (calls t = [CreateSubprocess ["ssh"; "-T"; "git@github.com"] None] \/
   exists proc,
     calls t = [CreateSubprocess ["ssh"; "-T"; "git@github.com"] None;
                Communicate proc]) /\
  match fst (fst (exec handle (verify_git_ssh_try self) w)) with
  | Returned _ => printed t = []
  | Raised (Exception e) =>
    printed t = ["Error verifying Git SSH access: " ++ err_msg e]
  | Raised (SystemExit _) => False
  end.
Proof.
  unfold verify_git_ssh, verify_git_ssh_try, decode. crunch.
  paths; (split; [first [left; reflexivity | right; eexists; reflexivity]
                 | reflexivity]).
Qed.


(** X5: [clone_repository] starts one process,
    [git clone git@github.com:<org>/<name>.git <path>], in no particular
    directory, waits for it at most once and makes no other call (it does not
    look at the path); it prints nothing when it returns true, and the one
    line [Error cloning repository: <message>] when it returns false. *)
Theorem clone_repository_starts_one_process (self : ProjectInitializer)
        (n : string) (p : Path) (w : W) :
  let start :=
    CreateSubprocess
      ["git"; "clone"; remote_url (repo_org self) n; PathLib.str p] None in
  exists b w' t,
    exec handle (clone_repository self n p) w = (Returned b, w', t) /\
    (calls t = [start] \/ exists proc, calls t = [start; Communicate proc]) /\
    (b = true ->
     printed t = [] /\ exists proc, calls t = [start; Communicate proc]) /\
    (b = false ->
     exists e, printed t = ["Error cloning repository: " ++ err_msg e]).
Proof.
  cbv zeta. open_task. crunch.
  paths; do 3 eexists; (split; [reflexivity|]);
    (split; [first [left; reflexivity | right; eexists; reflexivity]|]);
    split; intros H;
    first [ discriminate H
          | split; [reflexivity | eexists; reflexivity]
          | eexists; reflexivity ].
Qed.


(** X7: when the target path exists and [check_remote] returns false, the
    task prints, after its two opening lines, the mismatch line, the expected
    URL and the request to check by hand, and nothing else. *)
Theorem mismatch_names_the_expected_url (self : ProjectInitializer)
        (repo : RepositoryDescriptor) (w w1 w2 : W) (t0 : list entry) :
  handle (PathExists (target_path self repo)) w = (true, w1) ->
  exec handle
       (check_remote self (target_path self repo)
                     (remote_url (repo_org self) (name repo))) w1
  = (Returned false, w2, t0) ->
  printed (snd (exec handle (process_repository self repo) w)) =
  [nl ++ "Processing repository: " ++ name repo;
   "Repository " ++ name repo ++ " exists, verifying...";
   cross_mark ++ " Remote mismatch for " ++ name repo;
   "Expected: " ++ remote_url (repo_org self) (name repo);
   "Please check the repository manually"].
Proof.
  intros Hex Hcheck. revert Hcheck. open_task. crunch. rewrite Hex. crunch.
  paths;
    try (match goal with
         | H : _ = false, E : String.eqb _ _ = true |- _ =>
           exfalso; exact (Bool.diff_true_false (eq_trans (eq_sym E) H))
         end);
    reflexivity.
Qed.

(** X8: [run] makes the base directory before it probes the SSH access,
    whether the probe then succeeds or not: its first line is
    [Initializing project: <name>], its first call is
    [os.makedirs(base_dir)], the only one, and the calls that follow are
    those of [verify_git_ssh]. *)
Theorem base_dir_is_made_before_the_probe (self : ProjectInitializer) (w : W) :
  let t := snd (exec handle (run_before_gather self) w) in
  hd_error t = Some (Printed ("Initializing project: " ++ project_name self)) /\
  calls t =
  MakeDirs (base_dir self)
  :: calls (snd (exec handle (verify_git_ssh self)
                      (snd (handle (MakeDirs (base_dir self)) w)))) /\
  count is_makedirs t = 1.
Proof.
  unfold run_before_gather, verify_git_ssh, verify_git_ssh_try, decode. crunch.
  destruct (handle (MakeDirs (base_dir self)) w) as [[] w0]. crunch.
  paths; repeat split; reflexivity.
Qed.

(** How the first part of [run] ends: with the line that tells the access is
    verified, or with [sys.exit(1)] after the line that asks to check the
    SSH configuration; the semaphore is not touched. *)
Lemma run_before_gather_ends (self : ProjectInitializer) (w : W) :
  let '(r, _, t) := exec handle (run_before_gather self) w in
  releases t = 0 /\
  ((r = Returned tt /\
    last t Acquired = Printed (check_mark ++ " Git SSH access verified")) \/
   (r = Raised (SystemExit 1) /\
    last t Acquired = Printed "Please check your SSH configuration")).
Proof.
  unfold run_before_gather, verify_git_ssh, verify_git_ssh_try, decode. crunch.
  destruct (handle (MakeDirs (base_dir self)) w) as [[] w0]. crunch.
  paths; (split; [reflexivity|]);
    first [left; split; reflexivity | right; split; reflexivity].
Qed.

(** X9: [run] returns exactly when its trace ends with the line
    [Project initialization complete!]; and when it ends with [sys.exit],
    the status is 1 and the trace ends with the line that asks to check the
    SSH configuration. *)
Theorem banner_closes_a_completed_run (self : ProjectInitializer) (w : W)
        (r : result unit) (t : list entry) :
  run handle self w r t ->
  (r = Returned tt <-> last t Acquired = Printed completion_banner) /\
  (forall status,
      r = Raised (SystemExit status) ->
      status = 1%Z /\
      last t Acquired = Printed "Please check your SSH configuration").
Proof.
  intros Hr.
  pose proof (run_before_gather_ends self w) as Hend.
  inversion Hr as [e w2 t1 He | w2 t1 s tk e He Hs Hin Hraise
                   | w2 t1 s r' w3 t2 He Hs Hall Hnone Hafter]; subst.
  - rewrite He in Hend. destruct Hend as [_ [[H _] | [H Hlast]]];
      [discriminate H|].
    rewrite H, Hlast. split.
    + split; intros H'; discriminate H'.
    + intros status Hs. injection Hs as <-. split; reflexivity.
  - rewrite (no_task_raises _ _ _ _ Hs Hin) in Hraise. discriminate Hraise.
  - cbn in Hafter. inversion Hafter; subst.
    rewrite app_assoc, last_last. split.
    + split; reflexivity.
    + intros status H. discriminate H.
Qed.

(** ** More on the tasks of [asyncio.gather] *)


(** X10: once every task of [asyncio.gather] has finished, however they
    were interleaved and whatever each met, none is inside and the semaphore
    is back at the value it started with: no permit is lost. *)
Theorem semaphore_is_given_back (self : ProjectInitializer) (w : W)
        (s : pool W) :
  pool_steps handle (gather self w) s ->
  all_finished s = true ->
  permits s = semaphore self /\
  in_flight s = 0.
Proof.
  intros Hsteps Hall.
  destruct (pool_steps_keep_inv _ _ _ Hsteps (gather_inv self w)) as [Hok Hn].
  assert (Hz : in_flight s = 0).
  { unfold in_flight, all_finished in *.
    rewrite forallb_forall in Hall. rewrite Forall_forall in Hok.
    clear Hn. induction (tasks s) as [|t l IH]; [reflexivity|].
    cbn. destruct (holding t) eqn:Hh.
    - specialize (Hok t (or_introl eq_refl)). unfold task_ok in Hok.
      rewrite Hh in Hok. specialize (Hall t (or_introl eq_refl)).
      destruct (code t); cbn in Hok, Hall; try contradiction;
        discriminate Hall.
    - apply IH; intros x Hx; [apply Hall | apply Hok]; right; exact Hx. }
  split; [lia | exact Hz].
Qed.

Lemma not_entered_split (l1 l2 : list task) (t : task) :
  length (filter not_entered (l1 ++ t :: l2)) =
  length (filter not_entered l1) + (if not_entered t then 1 else 0)
  + length (filter not_entered l2).
Proof.
  rewrite filter_app, length_app. cbn.
  destruct (not_entered t); cbn; lia.
Qed.

(** As many tasks can enter as there are permits, while tasks wait. *)
Lemma permits_can_be_used_up (k : nat) :
  forall s : pool W,
    permits s = k ->
    k <= length (filter not_entered (tasks s)) ->
    exists s', pool_steps handle s s' /\ permits s' = 0.
Proof.
  induction k as [|k IH]; intros s Hp Hlen.
  - exists s. split; [apply steps_done | exact Hp].
  - destruct (filter not_entered (tasks s)) as [|t rest] eqn:Hf;
      [cbn in Hlen; lia|].
    assert (Hin : In t (filter not_entered (tasks s)))
      by (rewrite Hf; left; reflexivity).
    apply filter_In in Hin as [Hin Hne].
    apply in_split in Hin as (l1 & l2 & Hl).
    destruct s as [w m l lg]. cbn in Hp, Hl, Hf, Hlen. subst m l.
    destruct t as [h p]. unfold not_entered in Hne. cbn in Hne.
    destruct h; [discriminate Hne|].
    destruct p as [a|e|line c|c|c|c0 c]; try discriminate Hne.
    destruct (IH {| world := w; permits := k;
                    tasks := (l1 ++ {| holding := true; code := c |} :: l2)%list;
                    log := (lg ++ [Acquired])%list |}) as (s' & Hs & Hz).
    + reflexivity.
    + cbn. apply (f_equal (@length task)) in Hf.
      rewrite not_entered_split in *. cbn in *. lia.
    + exists s'. split; [|exact Hz].
      eapply steps_next; [|exact Hs].
      exists (length l1). apply pool_fire_at. reflexivity.
Qed.

Lemma gather_not_entered (self : ProjectInitializer) (w : W) :
  length (filter not_entered (tasks (gather self w))) =
  length (repositories self).
Proof.
  unfold gather, run_tasks. cbn.
  induction (repositories self) as [|repo l IH]; [reflexivity|].
  cbn [map filter]. change (not_entered _) with true. cbn. now rewrite IH.
Qed.

(** X11: the limit is reached.  With at least as many repositories as the
    semaphore has permits, the tasks can reach a state where as many are
    inside as there are permits (5 for the initializer [__init__] builds) and
    none is left; in that state no task that is outside can take a step: it
    has returned, or it waits for a release. *)
Theorem semaphore_limit_is_reached (self : ProjectInitializer) (w : W) :
  semaphore self <= length (repositories self) ->
  exists s,
    pool_steps handle (gather self w) s /\
    in_flight s = semaphore self /\
    permits s = 0 /\
    (forall i t,
        nth_error (tasks s) i = Some t -> holding t = false ->
        pool_fire handle i s = None).
Proof.
  intros Hlen.
  destruct (permits_can_be_used_up (semaphore self) (gather self w))
    as (s & Hs & Hz).
  { reflexivity. }
  { now rewrite gather_not_entered. }
  destruct (pool_steps_keep_inv _ _ _ Hs (gather_inv self w)) as [Hok Hn].
  exists s. split; [exact Hs|]. split; [lia|]. split; [exact Hz|].
  intros i t Hnth Hh. unfold pool_fire. rewrite Hnth.
  rewrite Forall_forall in Hok.
  specialize (Hok t (nth_error_In _ _ Hnth)).
  unfold task_ok in Hok. rewrite Hh in Hok. unfold task_next.
  destruct Hok as [Hk | (k & Hk & _)]; rewrite Hk; [reflexivity|].
  rewrite Hz. reflexivity.
Qed.


Lemma acquisitions_app (t1 t2 : list entry) :
  acquisitions (t1 ++ t2) = acquisitions t1 + acquisitions t2.
Proof. unfold acquisitions. now rewrite filter_app, length_app. Qed.







Lemma no_task_no_step (s s' : pool W) :
  tasks s = [] -> pool_steps handle s s' -> s' = s.
Proof.
  intros Hnil Hs. destruct Hs as [|s s1 s2 [i Hf] _]; [reflexivity|].
  unfold pool_fire in Hf. rewrite Hnil in Hf.
  destruct i; discriminate Hf.
Qed.

(** X13: with an empty list of repositories [run] does what it does before
    [asyncio.gather] and nothing more, but for the last line when the access
    was verified: no task is started and no call is made for a
    repository. *)
Theorem no_repository_no_task (self : ProjectInitializer) (w : W)
        (r : result unit) (t : list entry) :
  repositories self = [] ->
  run handle self w r t ->
  t = (snd (exec handle (run_before_gather self) w)
       ++ match r with
          | Returned _ => [Printed completion_banner]
          | Raised _ => []
          end)%list /\
  acquisitions t = 0 /\
  count for_repository t = 0.
Proof.
  intros Hnil Hr.
  destruct (run_before_gather_spec self w)
    as (b & w1 & tv & t0 & _ & Hrun & Hacq & Hcnt).
  assert (Hg : forall w' : W, tasks (gather self w') = []).
  { intros w'. unfold gather, run_tasks. cbn. now rewrite Hnil. }
  inversion Hr as [e w2 t1 He | w2 t1 s tk e He Hs Hin Hraise
                   | w2 t1 s r' w3 t2 He Hs Hall Hnone Hafter]; subst.
  - rewrite He in *. injection Hrun as _ _ <-. cbn [snd].
    rewrite app_nil_r. auto.
  - apply no_task_no_step in Hs; [|apply Hg]. subst s.
    rewrite Hg in Hin. contradiction.
  - apply no_task_no_step in Hs; [|apply Hg]. subst s.
    cbn in Hafter. injection Hafter as <- _ <-.
    rewrite He in *. injection Hrun as _ _ <-. cbn [snd log gather].
    cbn [app]. split; [reflexivity|].
    unfold count in *. unfold calls in *.
    rewrite acquisitions_app, flat_map_app, filter_app, length_app.
    cbn. split; lia.
Qed.

(** A pool of one task has one run: that of the task alone. *)
Lemma single_task_steps (s s' : pool W) :
  pool_steps handle s s' ->
  forall (w : W) (n : nat) (h : bool) (p : prog unit) (lg : list entry),
    s = {| world := w; permits := n;
           tasks := [{| holding := h; code := p |}]; log := lg |} ->
    all_finished s' = true ->
    log s' = (lg ++ snd (exec handle p w))%list.
Proof.
  induction 1 as [s|s s1 s2 [i Hf] _ IH]; intros w n h p lg -> Hall.
  - unfold all_finished in Hall. cbn in Hall.
    destruct p; try discriminate Hall; cbn; now rewrite app_nil_r.
  - apply pool_fire_inv in Hf
      as (l1 & t & l2 & e & w' & n' & t' & _ & Hl & Ht & ->).
    cbn in Hl, Ht.
    destruct l1 as [|a l1].
    2:{ injection Hl as _ Hl. destruct l1; discriminate Hl. }
    cbn in Hl. injection Hl as <- <-.
    unfold task_next in Ht. cbn in Ht.
    destruct p as [a|ex|line k|k|k|c k]; try discriminate Ht.
    + injection Ht as <- <- <- <-.
      rewrite (IH _ _ _ _ _ eq_refl Hall). cbn.
      destruct (exec handle k w) as [[r w1] t1]. cbn.
      now rewrite <- app_assoc.
    + destruct n as [|n]; [discriminate Ht|].
      injection Ht as <- <- <- <-.
      rewrite (IH _ _ _ _ _ eq_refl Hall). cbn.
      destruct (exec handle k w) as [[r w1] t1]. cbn.
      now rewrite <- app_assoc.
    + injection Ht as <- <- <- <-.
      rewrite (IH _ _ _ _ _ eq_refl Hall). cbn.
      destruct (exec handle k w) as [[r w1] t1]. cbn.
      now rewrite <- app_assoc.
    + destruct (handle c w) as [x w1] eqn:E.
      injection Ht as <- <- <- <-.
      rewrite (IH _ _ _ _ _ eq_refl Hall). cbn. rewrite E.
      destruct (exec handle (k x) w1) as [[r w2] t1]. cbn.
      now rewrite <- app_assoc.
Qed.

(** X14: with a single repository there is nothing to interleave: when
    [run] returns, what it did is what it does before [asyncio.gather], then
    what the task of the repository does alone, then the last line; and when
    it ends with [sys.exit], it did what it does before [asyncio.gather] and
    nothing more. *)
Theorem single_repository_runs_in_sequence (self : ProjectInitializer)
        (repo : RepositoryDescriptor) (w : W) (r : result unit)
        (t : list entry) :
  repositories self = [repo] ->
  run handle self w r t ->
  let '(_, w1, t1) := exec handle (run_before_gather self) w in
  (r = Returned tt ->
   t = (t1 ++ snd (exec handle (process_repository self repo) w1)
           ++ [Printed completion_banner])%list) /\
  (forall status, r = Raised (SystemExit status) -> t = t1).
Proof.
  intros Hone Hr.
  inversion Hr as [e w2 t1 He | w2 t1 s tk e He Hs Hin Hraise
                   | w2 t1 s r' w3 t2 He Hs Hall Hnone Hafter]; subst;
    rewrite He.
  - split; [discriminate | reflexivity].
  - rewrite (no_task_raises _ _ _ _ Hs Hin) in Hraise. discriminate Hraise.
  - cbn in Hafter. injection Hafter as <- _ <-.
    unfold gather, run_tasks in Hs. rewrite Hone in Hs. cbn in Hs.
    rewrite (single_task_steps _ _ Hs _ _ _ _ _ eq_refl Hall).
    split; [reflexivity | discriminate].
Qed.

End Execution.

(** ** The properties at work *)

Lemma clone_when_absent_witness :
  fst (scripted fresh (PathExists (target_path dev storage)) []) = false /\
  exists w' t,
    exec (scripted fresh) (process_repository dev storage) []
    = (Returned tt, w', t) /\
    count is_clone t = 1 /\
    count is_fetch t = 0 /\
    count is_branch_lookup t = 0 /\
    count is_pull t = 0 /\
    count is_remote_read t = 0 /\
    (reported (name storage) t = [Cloned] \/
     reported (name storage) t = [CloneFailed]).
Proof.
  split; [reflexivity|].
  apply (clone_when_absent _ (scripted fresh) dev storage []). reflexivity.
Defined.

Lemma remote_mismatch_stops_witness :
  exists t,
    exec (scripted forked) (process_repository dev storage) []
    = (Returned tt, [read_cmd], t) /\
    calls t =
    PathExists (target_path dev storage)
    :: calls [Called (CreateSubprocess read_cmd (Some storage_path));
              Called (Communicate 0)] /\
    count mutating t = 0 /\
    reported (name storage) t = [RemoteMismatch].
Proof.
  apply (remote_mismatch_stops
           _ (scripted forked) dev storage [] [] [read_cmd]
           "https://github.com/dev/terraform-gcp-storage").
  - reflexivity.
  - reflexivity.
  - discriminate.
Defined.

Lemma unreadable_remote_is_mismatch_witness :
  exec (scripted no_git)
       (check_remote dev (target_path dev storage)
                     (remote_url (repo_org dev) (name storage))) []
  = (Returned false, [], [Called (CreateSubprocess read_cmd (Some storage_path))]) /\
  exists t,
    exec (scripted no_git) (process_repository dev storage) []
    = (Returned tt, [], t) /\
    calls t =
    PathExists (target_path dev storage)
    :: calls [Called (CreateSubprocess read_cmd (Some storage_path))] /\
    count mutating t = 0 /\
    reported (name storage) t = [RemoteMismatch].
Proof.
  apply (unreadable_remote_is_mismatch
           _ (scripted no_git) dev storage [] [] [] (Exception EMFILE)).
  - reflexivity.
  - reflexivity.
Defined.

Lemma update_when_remote_matches_witness :
  let handle := scripted all_cloned in
  let p := target_path dev storage in
  let w2 := [read_cmd] in
  let t0 := [Called (CreateSubprocess read_cmd (Some storage_path));
             Called (Communicate 0)] in
  let fetch := CreateSubprocess ["git"; "fetch"] (Some p) in
  let lookup :=
    CreateSubprocess ["git"; "rev-parse"; "--abbrev-ref"; "HEAD"] (Some p) in
  exists w' t,
    exec handle (process_repository dev storage) [] = (Returned tt, w', t) /\
    count is_clone t = 0 /\
    count is_fetch t = 1 /\
    count is_pull t <= count is_branch_lookup t /\
    count is_branch_lookup t <= 1 /\
    (reported (name storage) t = [Updated] \/
     reported (name storage) t = [UpdateFailed]) /\
    (forall b w3 t1,
        exec handle (update_repository_try dev p) w2 = (Returned b, w3, t1) ->
        reported (name storage) t = [Updated] /\
        exists branch p1 p2 p3 out wa wb,
          calls t =
          (PathExists p :: calls t0 ++
           [fetch; Communicate p1; lookup; Communicate p2;
            CreateSubprocess ["git"; "pull"; "origin"; branch] (Some p);
            Communicate p3])%list /\
          handle (Communicate p2) wa = (inr out, wb) /\
          branch = Str.strip (stdout out)) /\
    (forall e w3 t1,
        exec handle (update_repository_try dev p) w2 = (Raised e, w3, t1) ->
        reported (name storage) t = [UpdateFailed] /\
        w' = w3 /\
        calls t = (PathExists p :: calls t0 ++ calls t1)%list) /\
    (forall e w3,
        handle fetch w2 = (inl e, w3) ->
        count is_branch_lookup t = 0 /\ count is_pull t = 0) /\
    (forall p1 w3 e w4,
        handle fetch w2 = (inr p1, w3) ->
        handle (Communicate p1) w3 = (inl e, w4) ->
        count is_branch_lookup t = 0 /\ count is_pull t = 0) /\
    (forall p1 w3 o1 w4 e w5,
        handle fetch w2 = (inr p1, w3) ->
        handle (Communicate p1) w3 = (inr o1, w4) ->
        handle lookup w4 = (inl e, w5) ->
        count is_pull t = 0) /\
    (forall p1 w3 o1 w4 p2 w5 e w6,
        handle fetch w2 = (inr p1, w3) ->
        handle (Communicate p1) w3 = (inr o1, w4) ->
        handle lookup w4 = (inr p2, w5) ->
        handle (Communicate p2) w5 = (inl e, w6) ->
        count is_pull t = 0) /\
    (forall p1 w3 o1 w4 p2 w5 o2 w6,
        handle fetch w2 = (inr p1, w3) ->
        handle (Communicate p1) w3 = (inr o1, w4) ->
        handle lookup w4 = (inr p2, w5) ->
        handle (Communicate p2) w5 = (inr o2, w6) ->
        Str.utf8_valid (Str.codes (stdout o2)) = false ->
        count is_pull t = 0).
Proof.
  apply (update_when_remote_matches
           _ (scripted all_cloned) dev storage [] [] [read_cmd]).
  - reflexivity.
  - reflexivity.
Defined.

(** The same where [git fetch] cannot be started: the steps after it are
    skipped. *)
Example update_with_fetch_refused :
  let t := snd (exec (scripted fetch_refused) (process_repository dev storage) [])
  in
  calls t =
  [PathExists storage_path;
   CreateSubprocess read_cmd (Some storage_path);
   Communicate 0;
   CreateSubprocess ["git"; "fetch"] (Some storage_path)] /\
  reported (name storage) t = [UpdateFailed].
Proof. split; reflexivity. Qed.

Lemma target_is_base_joined_with_name_witness :
  let target := target_path dev storage in
  (forall parent d, dev_cwd = (parent ++ [d])%list -> base_dir dev = parent) /\
  (dev_cwd = [] -> base_dir dev = []) /\
  (PathLib.simple_name (name storage) = true ->
   target = (base_dir dev ++ [name storage])%list /\
   PathLib.str target =
   String.concat "" (map (fun c => "/" ++ c) (base_dir dev))
   ++ "/" ++ name storage) /\
  Forall (fun c => match c with
                   | PathExists p => p = target
                   | CreateSubprocess argv (Some d) => d = target
                   | CreateSubprocess argv None =>
                     exists url, argv = ["git"; "clone"; url; PathLib.str target]
                   | Communicate _ => True
                   | MakeDirs _ => False
                   end)
         (calls (snd (exec (scripted fresh) (process_repository dev storage) []))).
Proof.
  apply (target_is_base_joined_with_name
           _ (scripted fresh) dev_cwd "gcp-kubernetes" "HappyPathway"
           config_repositories storage []).
Defined.

(** The values: the base directory of a workspace at
    [/home/dev/gcp-kubernetes], the target of a repository, what is handed to
    [git clone], and the joins pathlib sets apart. *)
Example paths_of_the_workspace :
  base_dir dev = ["home"; "dev"] /\
  target_path dev storage = ["home"; "dev"; "terraform-gcp-storage"] /\
  PathLib.str (target_path dev storage) = "/home/dev/terraform-gcp-storage" /\
  PathLib.simple_name (name storage) = true /\
  PathLib.str (PathLib.joinpath ["home"; "dev"] "/srv//x/./y/") = "/srv/x/y" /\
  PathLib.str (PathLib.joinpath ["home"; "dev"] "//x") = "//x" /\
  PathLib.str (PathLib.joinpath ["home"; "dev"] "///x") = "/x" /\
  PathLib.str (PathLib.joinpath ["home"; "dev"] "../x") = "/home/dev/../x" /\
  PathLib.str (PathLib.joinpath ["home"; "dev"] "") = "/home/dev" /\
  PathLib.str (PathLib.resolve_parent []) = "/".
Proof. repeat split; reflexivity. Qed.

Lemma semaphore_bounds_tasks_in_flight_witness :
  semaphore dev = 5 /\
  in_flight six_asked <= 5 /\
  permits six_asked + in_flight six_asked = 5 /\
  Forall task_ok (tasks six_asked) /\
  (forall i s' c,
      pool_fire (scripted fresh) i six_asked = Some s' ->
      log s' = (log six_asked ++ [Called c])%list ->
      exists t, nth_error (tasks six_asked) i = Some t /\ holding t = true).
Proof.
  apply (semaphore_bounds_tasks_in_flight
           _ (scripted fresh) dev_cwd "gcp-kubernetes" "HappyPathway"
           config_repositories []).
  apply pool_run_steps.
Defined.

Example five_in_flight_sixth_waits :
  in_flight six_asked = 5 /\ permits six_asked = 0 /\
  map holding (tasks six_asked) = [true; true; true; true; true; false] /\
  pool_fire (scripted fresh) 5 six_asked = None.
Proof. repeat split; reflexivity. Qed.


(** C6, as stated, fails: the path exists and the remote is the expected
    one, but [git fetch] cannot be started; the fetch was attempted once, and
    neither a branch lookup nor a pull follows. *)
Lemma refused_fetch_ends_the_update :
  scripted fetch_refused (PathExists (target_path dev storage)) [] = (true, []) /\
  fst (fst (exec (scripted fetch_refused)
                 (read_origin (target_path dev storage)) []))
  = Returned (remote_url (repo_org dev) (name storage)) /\
  let t := snd (exec (scripted fetch_refused) (process_repository dev storage) [])
  in
  count is_fetch t = 1 /\
  count is_branch_lookup t = 0 /\
  count is_pull t = 0 /\
  reported (name storage) t = [UpdateFailed].
Proof. repeat split; reflexivity. Qed.

(** C8, as stated, fails: the text [ssh] wrote does not contain the marker,
    and [verify_git_ssh] returns true. *)
Lemma capitals_are_accepted :
  Str.contains "successfully authenticated"
               "HI DEV! YOU'VE SUCCESSFULLY AUTHENTICATED" = false /\
  wait_result shouting ["ssh"; "-T"; "git@github.com"]
  = inr {| returncode := 1; stdout := "";
           stderr := "HI DEV! YOU'VE SUCCESSFULLY AUTHENTICATED" |} /\
  fst (fst (exec (scripted shouting) (verify_git_ssh dev) [])) = Returned true.
Proof. repeat split; reflexivity. Qed.

(** github.com answers a known key with status 1 and its greeting on the
    error stream: the access is verified. *)
Example github_greeting_verifies :
  fst (fst (exec (scripted fresh) (verify_git_ssh dev) [])) = Returned true /\
  fst (fst (exec (scripted denied) (verify_git_ssh dev) [])) = Returned false.
Proof. split; reflexivity. Qed.

(** An organization and a name that contain [/] can give the URL of another
    pair: only one of the two may change for the URL to change for sure. *)
Example remote_url_of_two_pairs :
  remote_url "a/b" "c" = remote_url "a" "b/c".
Proof. reflexivity. Qed.

Example lower_marker :
  Str.lower "Hi dev! You've Successfully Authenticated" =
  "hi dev! you've successfully authenticated".
Proof. reflexivity. Qed.

Example strip_newline :
  Str.strip (" git@github.com:o/r.git" ++ nl) = "git@github.com:o/r.git".
Proof. reflexivity. Qed.

Example joinpath_relative :
  PathLib.str (PathLib.joinpath ["home"; "dev"] "terraform-gcp-storage") =
  "/home/dev/terraform-gcp-storage".
Proof. reflexivity. Qed.

(** [run] when the host does not know the key: [sys.exit(1)], and nothing
    but the probe. *)
Example run_denied :
  run (scripted denied) dev [] (Raised (SystemExit 1))
      [Printed "Initializing project: gcp-kubernetes";
       Called (MakeDirs ["home"; "dev"]);
       Printed (nl ++ "Verifying Git SSH access to GitHub...");
       Called (CreateSubprocess ["ssh"; "-T"; "git@github.com"] None);
       Called (Communicate 0);
       Printed (cross_mark ++ " Failed to verify Git SSH access to GitHub");
       Printed "Please check your SSH configuration"].
Proof. eapply run_stopped. reflexivity. Qed.

(** Where the access would be verified, [main] leaves status 1 all the same,
    without a probe. *)
Example main_in_a_fresh_workspace :
  fst (fst (exec (scripted fresh) (verify_git_ssh dev) [])) = Returned true /\
  exit_status (fst (fst (exec (scripted fresh) (main false) []))) = 1%Z /\
  snd (exec (scripted fresh) (main false) []) = [].
Proof. repeat split. Qed.

(** A directory that is no working tree is a remote mismatch, and is left
    alone. *)
Example plain_directory_is_mismatch :
  let t := snd (exec (scripted plain_directories)
                     (process_repository dev storage) []) in
  fst (fst (exec (scripted plain_directories)
                 (read_origin (target_path dev storage)) [])) = Returned "" /\
  reported (name storage) t = [RemoteMismatch] /\
  count mutating t = 0.
Proof. repeat split; reflexivity. Qed.

(** ** More of the properties at work *)

Lemma fresh_run : run (scripted fresh) dev [] (Returned tt) fresh_trace.
Proof.
  eapply run_completed with (s := six_done).
  - reflexivity.
  - apply pool_run_steps.
  - reflexivity.
  - intros t.
    apply no_task_raises
      with (handle := scripted fresh) (self := dev) (w := [ssh_cmd]).
    apply pool_run_steps.
  - reflexivity.
Qed.

Lemma storage_run :
  run (scripted all_cloned) storage_project [] (Returned tt) storage_trace.
Proof.
  eapply run_completed with (s := storage_done).
  - reflexivity.
  - apply pool_run_steps.
  - reflexivity.
  - intros t.
    apply no_task_raises
      with (handle := scripted all_cloned) (self := storage_project)
           (w := [ssh_cmd]).
    apply pool_run_steps.
  - reflexivity.
Qed.

Lemma empty_run :
  run (scripted fresh) empty_project [] (Returned tt) empty_trace.
Proof.
  eapply run_completed with (s := gather empty_project [ssh_cmd]).
  - reflexivity.
  - apply steps_done.
  - reflexivity.
  - intros t Hin. contradiction.
  - reflexivity.
Qed.

Lemma mismatch_names_the_expected_url_witness :
  printed (snd (exec (scripted forked) (process_repository dev storage) [])) =
  [nl ++ "Processing repository: " ++ name storage;
   "Repository " ++ name storage ++ " exists, verifying...";
   cross_mark ++ " Remote mismatch for " ++ name storage;
   "Expected: " ++ remote_url (repo_org dev) (name storage);
   "Please check the repository manually"].
Proof.
  apply (mismatch_names_the_expected_url
           _ (scripted forked) dev storage [] [] [read_cmd]
           [Called (CreateSubprocess read_cmd (Some storage_path));
            Called (Communicate 0)]).
  - reflexivity.
  - reflexivity.
Defined.


(** The update where [git fetch] is started but waiting for it raises: the
    branch lookup and the pull are not started. *)
Example update_stops_after_the_fetch :
  let handle := fun c (w : nat) =>
    match c return answer c * nat with
    | MakeDirs _ => (tt, w)
    | PathExists _ => (true, w)
    | CreateSubprocess _ _ => (inr w, S w)
    | Communicate _ => (inl EMFILE, w)
    end in
  exec handle (update_repository dev storage_path) 0 =
  (Returned false, 1,
   [Called (CreateSubprocess ["git"; "fetch"] (Some storage_path));
    Called (Communicate 0);
    Printed "Error updating repository: [Errno 24] Too many open files"]).
Proof. reflexivity. Qed.

Lemma banner_closes_a_completed_run_witness :
  (Returned tt = Returned tt <->
   last fresh_trace Acquired = Printed completion_banner) /\
  (forall status,
      Returned tt = Raised (SystemExit status) ->
      status = 1%Z /\
      last fresh_trace Acquired = Printed "Please check your SSH configuration").
Proof.
  apply (banner_closes_a_completed_run _ (scripted fresh) dev []).
  exact fresh_run.
Defined.

Lemma semaphore_is_given_back_witness :
  permits six_done = semaphore dev /\
  in_flight six_done = 0.
Proof.
  apply (semaphore_is_given_back _ (scripted fresh) dev [ssh_cmd]).
  - apply pool_run_steps.
  - reflexivity.
Defined.

Lemma semaphore_limit_is_reached_witness :
  exists s,
    pool_steps (scripted fresh) (gather dev []) s /\
    in_flight s = semaphore dev /\
    permits s = 0 /\
    (forall i t,
        nth_error (tasks s) i = Some t -> holding t = false ->
        pool_fire (scripted fresh) i s = None).
Proof.
  apply (semaphore_limit_is_reached _ (scripted fresh) dev []).
  cbn. lia.
Defined.


Lemma no_repository_no_task_witness :
  empty_trace =
  (snd (exec (scripted fresh) (run_before_gather empty_project) [])
   ++ [Printed completion_banner])%list /\
  acquisitions empty_trace = 0 /\
  count for_repository empty_trace = 0.
Proof.
  apply (no_repository_no_task
           _ (scripted fresh) empty_project [] (Returned tt)).
  - reflexivity.
  - exact empty_run.
Defined.

Lemma single_repository_runs_in_sequence_witness :
  let '(_, w1, t1) :=
    exec (scripted all_cloned) (run_before_gather storage_project) [] in
  (Returned tt = Returned tt ->
   storage_trace =
   (t1 ++ snd (exec (scripted all_cloned)
                    (process_repository storage_project storage) w1)
       ++ [Printed completion_banner])%list) /\
  (forall status, Returned tt = Raised (SystemExit status) ->
                  storage_trace = t1).
Proof.
  apply (single_repository_runs_in_sequence
           _ (scripted all_cloned) storage_project storage []
           (Returned tt)).
  - reflexivity.
  - exact storage_run.
Defined.

(** The run of the single repository, where it is cloned already with the
    expected remote: one fetch, one branch lookup, one pull, no clone. *)
Example storage_is_updated :
  count is_fetch storage_trace = 1 /\
  count is_branch_lookup storage_trace = 1 /\
  count is_pull storage_trace = 1 /\
  count is_clone storage_trace = 0 /\
  reported (name storage) storage_trace = [Updated].
Proof. repeat split; reflexivity. Qed.
